(** * FinalRAG: the vector store and the RAG chain

    A shallow embedding of [src/vectorstore.py] (class [VectorStore]) and
    [src/rag_chain.py] (class [RAGChain]), with the properties of the
    specification stated and settled against it.

    Conventions.
    - A Python [str] is a [string]; each character stands for the code
      point of the same number (U+0000 .. U+00FF), and [encode("utf-8")]
      is written out for that range.
    - A Python [int] is a [Z].
    - A call that may raise returns a [result]; an exception is carried
      as the text [str(e)] gives for it.
    - The collaborators the repository does not define (FAISS, the
      cross-encoder, the file system, the retriever, the LLM and the PubMed
      tool) are the fields of an environment record: what they answer and
      whether they raise is left to the environment. *)

From Stdlib Require Import ZArith Lia List Bool Ascii String.
From stdpp Require Import base decidable option list gmap strings.

Import ListNotations.

(** ** Python-level helpers *)

Module Py.

(** An operation that either returns or raises. *)
Inductive result (A : Type) : Type :=
| Ok (a : A)
| Raise (e : string).
Arguments Ok {A} a.
Arguments Raise {A} e.

Definition bind {A B} (r : result A) (k : A -> result B) : result B :=
  match r with
  | Ok a => k a
  | Raise e => Raise e
  end.

(** [try: r  except Exception as e: h e] *)
Definition try_except {A} (r : result A) (h : string -> A) : A :=
  match r with
  | Ok a => a
  | Raise e => h e
  end.

(** [l[i:j]] for [0 <= i]. *)
Definition slice {A} (l : list A) (i j : Z) : list A :=
  firstn (Z.to_nat (j - i)) (skipn (Z.to_nat i) l).

(** [l[-n:]]: the last [n] elements for [0 < n]; [l[-0:]] is [l[0:]], and
    a negative [n] makes the start index [-n] positive. *)
Definition slice_last {A} (l : list A) (n : Z) : list A :=
  if (0 <? n)%Z then skipn (length l - Z.to_nat n) l
  else skipn (Z.to_nat (- n)) l.

(** [l.pop(0)] on a non-empty list (the only use in the source). *)
Definition pop0 {A} (l : list A) : list A := tl l.

(** [c.isspace()] for a code point below 256. *)
Definition isspace (c : ascii) : bool :=
  let n := nat_of_ascii c in
  (Nat.leb 9 n && Nat.leb n 13) || (Nat.leb 28 n && Nat.leb n 32)
  || Nat.eqb n 133 || Nat.eqb n 160.

Fixpoint lstrip (s : string) : string :=
  match s with
  | EmptyString => EmptyString
  | String c s' => if isspace c then lstrip s' else s
  end.

(** A string of spaces only (the empty string is one). *)
Fixpoint all_space (s : string) : bool :=
  match s with
  | EmptyString => true
  | String c s' => isspace c && all_space s'
  end.

(** Truth value of a [str]: false exactly for the empty string. *)
Definition truthy (s : string) : bool :=
  match s with EmptyString => false | _ => true end.

(** [s.rstrip()]: a character goes when it is a space and all that
    follows it goes. *)
Fixpoint rstrip (s : string) : string :=
  match s with
  | EmptyString => EmptyString
  | String c s' =>
      match rstrip s' with
      | EmptyString => if isspace c then EmptyString else String c EmptyString
      | r => String c r
      end
  end.

(** [s.strip()] *)
Definition strip (s : string) : string := rstrip (lstrip s).

(** [sub in s] *)
Fixpoint contains (sub s : string) : bool :=
  String.prefix sub s ||
  match s with
  | EmptyString => false
  | String _ s' => contains sub s'
  end.

(** [s.encode("utf-8")], as bytes in [0, 256). *)
Definition encode_char (c : ascii) : list Z :=
  let n := Z.of_nat (nat_of_ascii c) in
  if (n <? 128)%Z then [n]
  else [Z.lor 192 (Z.shiftr n 6); Z.lor 128 (Z.land n 63)].

Fixpoint encode_utf8 (s : string) : list Z :=
  match s with
  | EmptyString => []
  | String c s' => encode_char c ++ encode_utf8 s'
  end.

End Py.

(** ** [hashlib.md5] (RFC 1321) over 32-bit words held in [Z] *)

Module MD5.
Local Open Scope Z_scope.

Definition wrap32 (x : Z) : Z := x mod 2 ^ 32.
Definition add32 (x y : Z) : Z := wrap32 (x + y).
Definition not32 (x : Z) : Z := Z.lxor x 0xFFFFFFFF.
Definition rotl32 (x n : Z) : Z :=
  wrap32 (Z.lor (Z.shiftl x n) (Z.shiftr x (32 - n))).

Definition shifts : list Z :=
  [7; 12; 17; 22; 7; 12; 17; 22; 7; 12; 17; 22; 7; 12; 17; 22;
   5; 9; 14; 20; 5; 9; 14; 20; 5; 9; 14; 20; 5; 9; 14; 20;
   4; 11; 16; 23; 4; 11; 16; 23; 4; 11; 16; 23; 4; 11; 16; 23;
   6; 10; 15; 21; 6; 10; 15; 21; 6; 10; 15; 21; 6; 10; 15; 21].

Definition sines : list Z :=
  [0xd76aa478; 0xe8c7b756; 0x242070db; 0xc1bdceee;
   0xf57c0faf; 0x4787c62a; 0xa8304613; 0xfd469501;
   0x698098d8; 0x8b44f7af; 0xffff5bb1; 0x895cd7be;
   0x6b901122; 0xfd987193; 0xa679438e; 0x49b40821;
   0xf61e2562; 0xc040b340; 0x265e5a51; 0xe9b6c7aa;
   0xd62f105d; 0x02441453; 0xd8a1e681; 0xe7d3fbc8;
   0x21e1cde6; 0xc33707d6; 0xf4d50d87; 0x455a14ed;
   0xa9e3e905; 0xfcefa3f8; 0x676f02d9; 0x8d2a4c8a;
   0xfffa3942; 0x8771f681; 0x6d9d6122; 0xfde5380c;
   0xa4beea44; 0x4bdecfa9; 0xf6bb4b60; 0xbebfbc70;
   0x289b7ec6; 0xeaa127fa; 0xd4ef3085; 0x04881d05;
   0xd9d4d039; 0xe6db99e5; 0x1fa27cf8; 0xc4ac5665;
   0xf4292244; 0x432aff97; 0xab9423a7; 0xfc93a039;
   0x655b59c3; 0x8f0ccc92; 0xffeff47d; 0x85845dd1;
   0x6fa87e4f; 0xfe2ce6e0; 0xa3014314; 0x4e0811a1;
   0xf7537e82; 0xbd3af235; 0x2ad7d2bb; 0xeb86d391].

Record state := { sa : Z; sb : Z; sc : Z; sd : Z }.

Definition init : state :=
  {| sa := 0x67452301; sb := 0xefcdab89; sc := 0x98badcfe; sd := 0x10325476 |}.

(** The round function and the index of the message word, for step [i]. *)
Definition mix (i b c d : Z) : Z * Z :=
  if i <? 16 then (Z.lor (Z.land b c) (Z.land (not32 b) d), i)
  else if i <? 32 then (Z.lor (Z.land d b) (Z.land (not32 d) c), (5 * i + 1) mod 16)
  else if i <? 48 then (Z.lxor (Z.lxor b c) d, (3 * i + 5) mod 16)
  else (Z.lxor c (Z.lor b (not32 d)), (7 * i) mod 16).

Definition step (m : list Z) (s : state) (i : nat) : state :=
  let '(f, g) := mix (Z.of_nat i) (sb s) (sc s) (sd s) in
  let f' := add32 (add32 (add32 f (sa s)) (nth i sines 0)) (nth (Z.to_nat g) m 0) in
  {| sa := sd s; sd := sc s; sc := sb s;
     sb := add32 (sb s) (rotl32 f' (nth i shifts 0)) |}.

(** Little-endian words of a block of bytes. *)
Fixpoint words (bytes : list Z) : list Z :=
  match bytes with
  | b0 :: b1 :: b2 :: b3 :: rest =>
      (b0 + Z.shiftl b1 8 + Z.shiftl b2 16 + Z.shiftl b3 24) :: words rest
  | _ => []
  end.

Definition compress (s : state) (block : list Z) : state :=
  let r := fold_left (step (words block)) (seq 0 64) s in
  {| sa := add32 (sa s) (sa r); sb := add32 (sb s) (sb r);
     sc := add32 (sc s) (sc r); sd := add32 (sd s) (sd r) |}.

(** [n] bytes of [x], least significant first. *)
Fixpoint le_bytes (n : nat) (x : Z) : list Z :=
  match n with
  | O => []
  | S n' => (x mod 256) :: le_bytes n' (x / 256)
  end.

Definition pad (msg : list Z) : list Z :=
  let len := Z.of_nat (length msg) in
  let zeros := Z.to_nat ((55 - len) mod 64) in
  msg ++ [128] ++ repeat 0 zeros ++ le_bytes 8 ((8 * len) mod 2 ^ 64).

Definition blocks (bytes : list Z) : list (list Z) :=
  map (fun j => firstn 64 (skipn (64 * j) bytes)) (seq 0 (length bytes / 64)).

Definition digest (msg : list Z) : list Z :=
  let s := fold_left compress (blocks (pad msg)) init in
  le_bytes 4 (sa s) ++ le_bytes 4 (sb s) ++ le_bytes 4 (sc s) ++ le_bytes 4 (sd s).

Definition hex_digit (n : Z) : ascii :=
  if n <? 10 then ascii_of_nat (Z.to_nat (48 + n))
  else ascii_of_nat (Z.to_nat (87 + n)).

Fixpoint hex (bytes : list Z) : string :=
  match bytes with
  | [] => EmptyString
  | b :: rest => String (hex_digit (b / 16)) (String (hex_digit (b mod 16)) (hex rest))
  end.

(** [hashlib.md5(bytes).hexdigest()] *)
Definition hexdigest (msg : list Z) : string := hex (digest msg).

End MD5.

(** ** [src/vectorstore.py] *)

Module Vectorstore.
Import Py.

(** [langchain.schema.Document] *)
Record Document := {
  page_content : string;
  metadata : list (string * string);
}.

(** A FAISS object, as far as the class looks into it: the documents of
    its docstore, in the order they were added. *)
Definition FAISS := list Document.

(** Objects are held by reference: [vector_index] and the base retriever
    of the compression retriever name a FAISS object by its address. *)
Definition addr := nat.

(** [ContextualCompressionRetriever]: the [top_n] of its compressor and the
    FAISS object its base retriever reads. *)
Record Retriever := {
  top_n : option Z;
  base_retriever : addr;
}.

(** What the libraries and the file system do. A [Some e] answer of an
    [_exn] field means that the call raises [e]; a FAISS call that raises
    leaves the object it was called on as it was. *)
Record Env := {
  from_documents_exn : list Document -> option string;
  add_documents_exn : FAISS -> list Document -> option string;
  save_local_exn : FAISS -> option string;
  load_local_exn : FAISS -> option string;
  rmtree_exn : option string;
  cross_encoder_exn : option string;
  asimilarity_search : FAISS -> string -> Z -> result (list Document);
  ainvoke : FAISS -> option Z -> string -> result (list Document);
}.

(** The fields of the dataclass the methods use, with the two pieces of
    ambient state they act on: the FAISS objects ([heap]) and what is at
    [persist_directory] ([disk]; [None] when the path does not exist). *)
Record VectorStore := {
  batch_size : Z;
  use_reranker : bool;
  reranker_top_n : option Z;
  vector_index : option addr;
  added_doc_hashes : gset string;
  compression_retriever : option Retriever;
  heap : gmap addr FAISS;
  disk : option FAISS;
}.

Definition set_use_reranker (b : bool) (st : VectorStore) : VectorStore :=
  {| batch_size := batch_size st; use_reranker := b;
     reranker_top_n := reranker_top_n st; vector_index := vector_index st;
     added_doc_hashes := added_doc_hashes st;
     compression_retriever := compression_retriever st;
     heap := heap st; disk := disk st |}.

Definition set_vector_index (v : option addr) (st : VectorStore) : VectorStore :=
  {| batch_size := batch_size st; use_reranker := use_reranker st;
     reranker_top_n := reranker_top_n st; vector_index := v;
     added_doc_hashes := added_doc_hashes st;
     compression_retriever := compression_retriever st;
     heap := heap st; disk := disk st |}.

Definition set_added_doc_hashes (s : gset string) (st : VectorStore) : VectorStore :=
  {| batch_size := batch_size st; use_reranker := use_reranker st;
     reranker_top_n := reranker_top_n st; vector_index := vector_index st;
     added_doc_hashes := s;
     compression_retriever := compression_retriever st;
     heap := heap st; disk := disk st |}.

Definition set_compression_retriever (r : option Retriever) (st : VectorStore)
  : VectorStore :=
  {| batch_size := batch_size st; use_reranker := use_reranker st;
     reranker_top_n := reranker_top_n st; vector_index := vector_index st;
     added_doc_hashes := added_doc_hashes st;
     compression_retriever := r;
     heap := heap st; disk := disk st |}.

Definition set_heap (h : gmap addr FAISS) (st : VectorStore) : VectorStore :=
  {| batch_size := batch_size st; use_reranker := use_reranker st;
     reranker_top_n := reranker_top_n st; vector_index := vector_index st;
     added_doc_hashes := added_doc_hashes st;
     compression_retriever := compression_retriever st;
     heap := h; disk := disk st |}.

Definition set_disk (d : option FAISS) (st : VectorStore) : VectorStore :=
  {| batch_size := batch_size st; use_reranker := use_reranker st;
     reranker_top_n := reranker_top_n st; vector_index := vector_index st;
     added_doc_hashes := added_doc_hashes st;
     compression_retriever := compression_retriever st;
     heap := heap st; disk := d |}.

(** The object at an address. *)
Definition deref (st : VectorStore) (a : addr) : FAISS :=
  default [] (heap st !! a).

(** A new object: it gets an address no object has. *)
Definition alloc (docs : FAISS) (st : VectorStore) : addr * VectorStore :=
  let a := fresh (dom (heap st)) in
  (a, set_heap (<[a := docs]> (heap st)) st).

(** The documents of [self.vector_index], none when there is no index. *)
Definition indexed (st : VectorStore) : list Document :=
  match vector_index st with
  | Some a => deref st a
  | None => []
  end.

Section Methods.

Variable env : Env.

(** *** Reranker setup *)

(** The body of the [try] raises when the cross-encoder cannot be built,
    and when [reranker_top_n] is [None]: [CrossEncoderReranker] takes an
    int for [top_n] and refuses anything else. *)
Definition _setup_reranker (st : VectorStore) : VectorStore :=
  match use_reranker st, vector_index st with
  | true, Some a =>
      match cross_encoder_exn env, reranker_top_n st with
      | None, Some _ =>
          set_compression_retriever
            (Some {| top_n := reranker_top_n st; base_retriever := a |}) st
      | _, _ => set_use_reranker false st
      end
  | _, _ => st
  end.

Definition perform_reranked_search (st : VectorStore) (query : string) (k : Z)
  : VectorStore * result (list Document) :=
  match use_reranker st, compression_retriever st with
  | true, Some r =>
      let st' := set_compression_retriever
                   (Some {| top_n := Some k; base_retriever := base_retriever r |}) st in
      (st', ainvoke env (deref st' (base_retriever r)) (Some k) query)
  | _, _ => (st, Ok [])
  end.

(** *** Document hashing operations *)

Definition _get_document_hash (doc : Document) : string :=
  if truthy (page_content doc)
  then MD5.hexdigest (encode_utf8 (page_content doc))
  else "".

Definition _update_doc_hashes (st : VectorStore) (batch : list Document)
  : VectorStore :=
  fold_left
    (fun s doc =>
       set_added_doc_hashes (added_doc_hashes s ∪ {[ _get_document_hash doc ]}) s)
    batch st.

Definition _reconstruct_hashes (st : VectorStore) : VectorStore :=
  _update_doc_hashes st (indexed st).

Definition _is_new_document (st : VectorStore) (doc : Document) : bool :=
  truthy (_get_document_hash doc)
  && bool_decide (_get_document_hash doc ∉ added_doc_hashes st).

(** *** Document filtering and validation *)

(** The condition of the comprehension:
    [doc.page_content and doc.page_content.strip()]. *)
Definition valid (doc : Document) : bool :=
  truthy (page_content doc) && truthy (strip (page_content doc)).

Definition _filter_valid_docs (documents : list Document) : list Document :=
  List.filter valid documents.

(** *** Index persistence *)

Definition _load_local_index (st : VectorStore) : VectorStore :=
  match disk st with
  | None => st
  | Some saved =>
      match load_local_exn env saved with
      | None =>
          let '(a, st1) := alloc saved st in
          _setup_reranker (_reconstruct_hashes (set_vector_index (Some a) st1))
      | Some _ => set_added_doc_hashes ∅ (set_vector_index None st)
      end
  end.

Definition _save_local_index (st : VectorStore) : VectorStore :=
  match vector_index st with
  | None => st
  | Some a =>
      match save_local_exn env (deref st a) with
      | None => set_disk (Some (deref st a)) st
      | Some _ => st
      end
  end.

Definition delete_index (st : VectorStore) : VectorStore :=
  match disk st with
  | None => st
  | Some _ =>
      let st1 := match rmtree_exn env with
                 | None => set_disk None st
                 | Some _ => st
                 end in
      set_added_doc_hashes ∅ (set_vector_index None st1)
  end.

(** *** Batch processing *)

(** [range(0, n, step)] for [0 <= n]: counting down from 0 yields nothing. *)
Definition range0 (n step : Z) : result (list Z) :=
  if (step =? 0)%Z then Raise "range() arg 3 must not be zero"
  else if (0 <? step)%Z
       then Ok (map (fun j => Z.of_nat j * step)%Z
                    (seq 0 (Z.to_nat ((n + step - 1) / step))))
       else Ok [].

Definition _create_batches (st : VectorStore) (documents : list Document)
  : result (list (list Document)) :=
  bind (range0 (Z.of_nat (length documents)) (batch_size st))
       (fun starts =>
          Ok (map (fun i => slice documents i (i + batch_size st)) starts)).

(** The FAISS call of [_add_batch_and_persist]: [FAISS.from_documents] when
    there is no index, [add_documents] on the index otherwise. *)
Definition mutate_index (st : VectorStore) (batch : list Document)
  : result VectorStore :=
  match vector_index st with
  | None =>
      match from_documents_exn env batch with
      | None => let '(a, st1) := alloc batch st in
                Ok (set_vector_index (Some a) st1)
      | Some e => Raise e
      end
  | Some a =>
      match add_documents_exn env (deref st a) batch with
      | None => Ok (set_heap (<[a := deref st a ++ batch]> (heap st)) st)
      | Some e => Raise e
      end
  end.

Definition _add_batch_and_persist (st : VectorStore) (batch : list Document)
  : VectorStore * Z :=
  match batch with
  | [] => (st, 0%Z)
  | _ =>
      try_except
        (bind (mutate_index st batch)
              (fun st1 =>
                 Ok (_update_doc_hashes (_save_local_index st1) batch,
                     Z.of_nat (length batch))))
        (fun _ => (st, 0%Z))
  end.

(** [asyncio.gather] over the batches. No coroutine of
    [_add_batch_and_persist] suspends once it holds its permit, and a
    permit is free whenever one asks, so the batches run one after the
    other in list order. *)
Definition gather_batches (st : VectorStore) (batches : list (list Document))
  : VectorStore :=
  fold_left (fun s batch => fst (_add_batch_and_persist s batch)) batches st.

Definition floor_div (a b : Z) : result Z :=
  if (b =? 0)%Z then Raise "integer division or modulo by zero"
  else Ok (a / b)%Z.

Definition _create_vector_index (st : VectorStore) (documents : list Document)
  : result VectorStore :=
  match documents with
  | [] => Ok st
  | _ =>
      let valid_documents := _filter_valid_docs documents in
      match valid_documents with
      | [] => Ok st
      | _ =>
          let new_documents := List.filter (_is_new_document st) valid_documents in
          match new_documents with
          | [] => Ok st
          | _ =>
              bind (floor_div (Z.of_nat (length new_documents)) (batch_size st))
                (fun _ =>
                   bind (_create_batches st new_documents)
                     (fun batches => Ok (gather_batches st batches)))
          end
      end
  end.

(** *** Vector index search *)

Definition similarity_search (st : VectorStore) (query : string) (k : Z)
  : VectorStore * list Document :=
  match vector_index st with
  | None => (st, [])
  | Some a =>
      if use_reranker st
      then let '(st', r) := perform_reranked_search st query k in
           (st', try_except r (fun _ => []))
      else (st, try_except (asimilarity_search env (deref st a) query k)
                           (fun _ => []))
  end.

(** [asyncio.gather] over the searches: the results come in the order of
    the queries. The searches change nothing but the [top_n] of the
    compressor, which each sets to the same [k]. *)
Fixpoint gather_searches (st : VectorStore) (queries : list string) (k : Z)
  : VectorStore * list (list Document) :=
  match queries with
  | [] => (st, [])
  | q :: rest =>
      let '(st1, r) := similarity_search st q k in
      let '(st2, rs) := gather_searches st1 rest k in
      (st2, r :: rs)
  end.

Definition batch_query (st : VectorStore) (queries : list string) (k : Z)
  : VectorStore * list (list Document) :=
  match vector_index st with
  | None => (st, map (fun _ => []) queries)
  | Some _ => gather_searches st queries k
  end.

(** *** Notions the properties are stated with *)

(** The fingerprints of a list of documents. *)
Definition hashes_of (docs : list Document) : gset string :=
  list_to_set (map _get_document_hash docs).

(** The documents an ingestion hands to the batches. *)
Definition new_documents (st : VectorStore) (documents : list Document)
  : list Document :=
  List.filter (_is_new_document st) (_filter_valid_docs documents).

(** No FAISS call that builds or extends an index raises. *)
Definition faiss_works : Prop :=
  (forall batch, from_documents_exn env batch = None)
  /\ (forall index batch, add_documents_exn env index batch = None).

(** What a search leaves behind: the [top_n] of the compressor, when the
    reranked branch is taken. *)
Definition searched (k : Z) (st : VectorStore) : VectorStore :=
  match vector_index st, use_reranker st, compression_retriever st with
  | Some _, true, Some r =>
      set_compression_retriever
        (Some {| top_n := Some k; base_retriever := base_retriever r |}) st
  | _, _, _ => st
  end.

(** The entries of a list of documents that have a given content. *)
Definition copies (content : string) (docs : list Document) : nat :=
  length (List.filter (fun doc => String.eqb (page_content doc) content) docs).

(** *** Construction: the dataclass fields, then [__post_init__] *)

Definition new (batch_size : Z) (use_reranker : bool) (reranker_top_n : option Z)
    (on_disk : option FAISS) : VectorStore :=
  _setup_reranker
    (_load_local_index
       {| batch_size := batch_size; use_reranker := use_reranker;
          reranker_top_n := reranker_top_n; vector_index := None;
          added_doc_hashes := ∅; compression_retriever := None;
          heap := ∅; disk := on_disk |}).

End Methods.

(** *** Stores a program can get to *)

(** A store is made by the constructor and then driven through its
    methods, each call in whatever environment it meets. *)
Inductive reachable : VectorStore -> Prop :=
| reachable_new env size rerank n on_disk :
    reachable (new env size rerank n on_disk)
| reachable_create_vector_index env st documents st' :
    reachable st ->
    _create_vector_index env st documents = Ok st' ->
    reachable st'
| reachable_add_batch env st batch :
    reachable st ->
    reachable (fst (_add_batch_and_persist env st batch))
| reachable_delete_index env st :
    reachable st ->
    reachable (delete_index env st)
| reachable_search env st query k :
    reachable st ->
    reachable (fst (similarity_search env st query k))
| reachable_reranked_search env st query k :
    reachable st ->
    reachable (fst (perform_reranked_search env st query k))
| reachable_batch_query env st queries k :
    reachable st ->
    reachable (fst (batch_query env st queries k)).

(** No FAISS call that builds, extends or saves an index raises. *)
Definition library_works (env : Env) : Prop :=
  faiss_works env /\ (forall index, save_local_exn env index = None).

(** *** The batches FAISS takes *)

(** The documents of the vector index, if there is one. *)
Definition index_of (st : VectorStore) : option FAISS :=
  deref st <$> vector_index st.

(** Whether the FAISS call of [_add_batch_and_persist] raises for a batch:
    [from_documents] without an index, [add_documents] on the index. *)
Definition faiss_exn (env : Env) (index : option FAISS) (batch : list Document)
  : option string :=
  match index with
  | None => from_documents_exn env batch
  | Some docs => add_documents_exn env docs batch
  end.

(** The batches of a run whose FAISS call returns, each asked with the
    index the earlier ones have left; an empty batch is not put to FAISS. *)
Fixpoint accepted (env : Env) (index : option FAISS)
    (batches : list (list Document)) : list (list Document) :=
  match batches with
  | [] => []
  | [] :: rest => accepted env index rest
  | batch :: rest =>
      match faiss_exn env index batch with
      | None => batch :: accepted env (Some (default [] index ++ batch)) rest
      | Some _ => accepted env index rest
      end
  end.

(** Two stores with the same index, objects, fingerprints and disk. *)
Definition same_corpus (st st' : VectorStore) : Prop :=
  vector_index st' = vector_index st
  /\ heap st' = heap st
  /\ added_doc_hashes st' = added_doc_hashes st
  /\ disk st' = disk st.

(** The object at [a] holds [old] and is not the vector index. *)
Definition detached (a : addr) (old : FAISS) (st : VectorStore) : Prop :=
  heap st !! a = Some old /\ vector_index st <> Some a.

End Vectorstore.

(** ** [src/rag_chain.py] *)

Module Rag_chain.
Import Py.
Local Open Scope string_scope.
Local Open Scope list_scope.

(** One entry of [self.memory]: the dict with keys ["question"] and
    ["answer"]. *)
Record Turn := {
  question : string;
  answer : string;
}.

(** What an LLM call returns: an object with a [content] attribute, or
    anything else, for which [str(response)] is taken. *)
Inductive Response :=
| WithContent (content : string)
| Other (str : string).

(** [r.content if hasattr(r, 'content') else str(r)] *)
Definition text_of (r : Response) : string :=
  match r with
  | WithContent content => content
  | Other str => str
  end.

(** The collaborators of one [invoke]: the retriever, the tagged LLM of
    the first call, the LLM of the second call and the PubMed tool. *)
Record Env := {
  hybrid_retrieval : string -> Z -> result string;
  llm_initial : string -> result Response;
  llm_invoke : string -> result Response;
  pubmed_invoke : string -> result string;
}.

Record RAGChain := {
  memory : list Turn;
  max_memory : Z;
}.

(** [__init__] *)
Definition init (max_memory : Z) : RAGChain :=
  {| memory := []; max_memory := max_memory |}.

Definition nl : string := String (ascii_of_nat 10) EmptyString.
Definition dq : string := String (ascii_of_nat 34) EmptyString.

(** The marker the first answer carries to ask for the tool. *)
Definition marker : string := "TOOL_USE:".

(** The text of a template written in a method body: its lines, [Some]
    for a line behind the indentation of the source, [None] for a line
    left empty. *)
Definition template (indent : string) (lines : list (option string)) : string :=
  String.concat nl
    (map (fun l => match l with Some l => indent +:+ l | None => "" end) lines).

Definition indent8 : string := "        ".
Definition indent16 : string := indent8 +:+ indent8.

(** [self.prompt.format(context=.., history=.., question=..)]: a chat
    template renders as one human message. *)
Definition prompt_format (context history question : string) : string :=
  "Human: " +:+ nl +:+
  template indent8
    [ Some "**Your Goal:** Provide a concise, accurate, and helpful answer to the user's question.";
      None;
      Some "**Instructions:**";
      Some "1. **Prioritize Context:** First, attempt to answer using the **Context** provided below.";
      Some "2. **Refer to History:** Consider the **Previous conversation** for continuity.";
      Some ("3. **Tool Usage:** If you cannot find a relevant answer in the Context or conversation history, simply respond with " +:+ dq +:+ "TOOL_USE: Need PubMed search" +:+ dq +:+ " and I will search PubMed for you.");
      Some "4. **Direct Answer:** Otherwise, provide a direct answer based on the available information.";
      None;
      Some "---";
      Some "**Context:**";
      Some context;
      None;
      Some "---";
      Some "**Previous conversation:**";
      Some history;
      None;
      Some "---";
      Some "**Current question:**";
      Some question;
      None;
      Some "**Answer:**";
      Some "Summary::" ]
  +:+ nl +:+ indent8.

(** [reprompt_template.format(pubmed_results=.., context=.., history=..,
    question=..)] *)
Definition reprompt_format (pubmed_results context history question : string)
  : string :=
  "Human: " +:+ nl +:+
  template indent16
    [ Some "You previously tried to answer a question but needed to use the PubMed tool. Here are the results from your PubMed search:";
      None;
      Some "**PubMed Search Results:**";
      Some pubmed_results;
      None;
      Some "**Original Context:**";
      Some context;
      None;
      Some "**Previous conversation:**";
      Some history;
      None;
      Some "**Original question:**";
      Some question;
      None;
      Some "Based on these PubMed search results, the original context, and the previous conversation, provide a concise and accurate answer. If the PubMed results also do not contain the answer, state that you cannot find the answer.";
      None;
      Some "**Answer:**";
      Some "Summary::" ]
  +:+ nl +:+ indent16.

Definition _format_history (st : RAGChain) : string :=
  match memory st with
  | [] => "No previous conversation."
  | _ =>
      String.concat nl
        (flat_map
           (fun turn => ["Human: " +:+ question turn;
                         "Assistant: " +:+ answer turn])
           (slice_last (memory st) (max_memory st)))
  end.

Definition _add_to_memory (st : RAGChain) (q a : string) : RAGChain :=
  let appended := memory st ++ [{| question := q; answer := a |}] in
  if (max_memory st <? Z.of_nat (length appended))%Z
  then {| memory := pop0 appended; max_memory := max_memory st |}
  else {| memory := appended; max_memory := max_memory st |}.

(** The answer of the failed tool branch. *)
Definition tool_error (e initial_answer : string) : string :=
  "An error occurred while trying to use the PubMed tool: " +:+ e +:+ nl
  +:+ "Original attempt: " +:+ initial_answer.

Definition invoke (env : Env) (st : RAGChain) (q : string) (k_vector : Z)
  : RAGChain * result string :=
  match hybrid_retrieval env q k_vector with
  | Raise e => (st, Raise e)
  | Ok context =>
      let formatted_prompt := prompt_format context (_format_history st) q in
      match llm_initial env formatted_prompt with
      | Raise e => (st, Raise e)
      | Ok response =>
          let initial_answer := text_of response in
          let answer :=
            if contains marker initial_answer
            then
              try_except
                (bind (pubmed_invoke env q)
                   (fun pubmed_results =>
                      let final_prompt_with_pubmed :=
                        reprompt_format pubmed_results context
                                        (_format_history st) q in
                      bind (llm_invoke env final_prompt_with_pubmed)
                        (fun final_response => Ok (text_of final_response))))
                (fun e => tool_error e initial_answer)
            else initial_answer in
          (_add_to_memory st q answer, Ok answer)
      end
  end.

(** [batch_invoke]: one question after the other; an exception of an
    [invoke] ends the loop. *)
Fixpoint batch_invoke (env : Env) (st : RAGChain) (questions : list string)
    (k_vector : Z) : RAGChain * result (list string) :=
  match questions with
  | [] => (st, Ok [])
  | q :: rest =>
      match invoke env st q k_vector with
      | (st1, Raise e) => (st1, Raise e)
      | (st1, Ok r) =>
          match batch_invoke env st1 rest k_vector with
          | (st2, Raise e) => (st2, Raise e)
          | (st2, Ok rs) => (st2, Ok (r :: rs))
          end
      end
  end.

Definition clear_memory (st : RAGChain) : RAGChain :=
  {| memory := []; max_memory := max_memory st |}.

(** A run of [_add_to_memory] calls, one per turn of the list. *)
Definition appends (st : RAGChain) (turns : list Turn) : RAGChain :=
  fold_left (fun s t => _add_to_memory s (question t) (answer t)) turns st.

(** The last [n] elements of a list, in their order. *)
Definition last_n {A} (n : nat) (l : list A) : list A :=
  skipn (length l - n) l.

(** The turns of a run of questions and the answers they got. *)
Fixpoint turns_of (questions answers : list string) : list Turn :=
  match questions, answers with
  | q :: questions', a :: answers' =>
      {| question := q; answer := a |} :: turns_of questions' answers'
  | _, _ => []
  end.

End Rag_chain.

(** ** Environments and documents for the examples *)

Module Scenario.
Import Py.
Local Open Scope string_scope.
Local Open Scope list_scope.

(** Nothing raises; a search gives the first [k] documents of the index
    it reads. *)
Definition quiet : Vectorstore.Env :=
  {| Vectorstore.from_documents_exn := fun _ => None;
     Vectorstore.add_documents_exn := fun _ _ => None;
     Vectorstore.save_local_exn := fun _ => None;
     Vectorstore.load_local_exn := fun _ => None;
     Vectorstore.rmtree_exn := None;
     Vectorstore.cross_encoder_exn := None;
     Vectorstore.asimilarity_search :=
       fun docs _ k => Ok (firstn (Z.to_nat k) docs);
     Vectorstore.ainvoke :=
       fun docs n _ => Ok (firstn (Z.to_nat (default 0%Z n)) docs) |}.

(** As [quiet], but every FAISS call that builds or extends an index
    raises. *)
Definition embedding_down : Vectorstore.Env :=
  {| Vectorstore.from_documents_exn := fun _ => Some "embedding failed";
     Vectorstore.add_documents_exn := fun _ _ => Some "embedding failed";
     Vectorstore.save_local_exn := fun _ => None;
     Vectorstore.load_local_exn := fun _ => None;
     Vectorstore.rmtree_exn := None;
     Vectorstore.cross_encoder_exn := None;
     Vectorstore.asimilarity_search :=
       fun docs _ k => Ok (firstn (Z.to_nat k) docs);
     Vectorstore.ainvoke :=
       fun docs n _ => Ok (firstn (Z.to_nat (default 0%Z n)) docs) |}.

(** As [quiet], but the directory can be neither written nor removed. *)
Definition read_only_disk : Vectorstore.Env :=
  {| Vectorstore.from_documents_exn := fun _ => None;
     Vectorstore.add_documents_exn := fun _ _ => None;
     Vectorstore.save_local_exn := fun _ => Some "permission denied";
     Vectorstore.load_local_exn := fun _ => None;
     Vectorstore.rmtree_exn := Some "permission denied";
     Vectorstore.cross_encoder_exn := None;
     Vectorstore.asimilarity_search :=
       fun docs _ k => Ok (firstn (Z.to_nat k) docs);
     Vectorstore.ainvoke :=
       fun docs n _ => Ok (firstn (Z.to_nat (default 0%Z n)) docs) |}.

Definition doc (content source : string) : Vectorstore.Document :=
  {| Vectorstore.page_content := content;
     Vectorstore.metadata := [("source", source)] |}.

(** Two entries with the same content. *)
Definition aspirin1 : Vectorstore.Document := doc "aspirin" "kg:1".
Definition aspirin2 : Vectorstore.Document := doc "aspirin" "kg:2".
Definition blank : Vectorstore.Document := doc " " "kg:3".

(** A store made with the defaults of the dataclass where no directory
    exists, and the same store after one ingestion. *)
Definition fresh_store : Vectorstore.VectorStore :=
  Vectorstore.new quiet 200 true (Some 4%Z) None.

Definition run (r : result Vectorstore.VectorStore) (otherwise : Vectorstore.VectorStore)
  : Vectorstore.VectorStore :=
  match r with Ok st => st | Raise _ => otherwise end.

Definition after_ingest : Vectorstore.VectorStore :=
  run (Vectorstore._create_vector_index quiet fresh_store [aspirin1; aspirin2])
      fresh_store.

(** A store without reranking whose ingestion could not be saved: the
    index is in memory, the directory does not exist. *)
Definition unsaved_store : Vectorstore.VectorStore :=
  let st := Vectorstore.new read_only_disk 200 false (Some 4%Z) None in
  run (Vectorstore._create_vector_index read_only_disk st [aspirin1]) st.

(** As [quiet], but an index, once made, takes no more documents. *)
Definition append_down : Vectorstore.Env :=
  {| Vectorstore.from_documents_exn := fun _ => None;
     Vectorstore.add_documents_exn := fun _ _ => Some "embedding failed";
     Vectorstore.save_local_exn := fun _ => None;
     Vectorstore.load_local_exn := fun _ => None;
     Vectorstore.rmtree_exn := None;
     Vectorstore.cross_encoder_exn := None;
     Vectorstore.asimilarity_search :=
       fun docs _ k => Ok (firstn (Z.to_nat k) docs);
     Vectorstore.ainvoke :=
       fun docs n _ => Ok (firstn (Z.to_nat (default 0%Z n)) docs) |}.

(** As [quiet], but the cross-encoder cannot be built. *)
Definition reranker_down : Vectorstore.Env :=
  {| Vectorstore.from_documents_exn := fun _ => None;
     Vectorstore.add_documents_exn := fun _ _ => None;
     Vectorstore.save_local_exn := fun _ => None;
     Vectorstore.load_local_exn := fun _ => None;
     Vectorstore.rmtree_exn := None;
     Vectorstore.cross_encoder_exn := Some "model not found";
     Vectorstore.asimilarity_search :=
       fun docs _ k => Ok (firstn (Z.to_nat k) docs);
     Vectorstore.ainvoke :=
       fun docs n _ => Ok (firstn (Z.to_nat (default 0%Z n)) docs) |}.

(** As [quiet], but what is in the directory cannot be read back. *)
Definition unreadable_disk : Vectorstore.Env :=
  {| Vectorstore.from_documents_exn := fun _ => None;
     Vectorstore.add_documents_exn := fun _ _ => None;
     Vectorstore.save_local_exn := fun _ => None;
     Vectorstore.load_local_exn := fun _ => Some "could not open index";
     Vectorstore.rmtree_exn := None;
     Vectorstore.cross_encoder_exn := None;
     Vectorstore.asimilarity_search :=
       fun docs _ k => Ok (firstn (Z.to_nat k) docs);
     Vectorstore.ainvoke :=
       fun docs n _ => Ok (firstn (Z.to_nat (default 0%Z n)) docs) |}.

(** As [quiet], but FAISS refuses any batch that holds this document. *)
Definition rejects (bad : Vectorstore.Document) : Vectorstore.Env :=
  let refuse batch :=
    if List.existsb
         (fun d => String.eqb (Vectorstore.page_content d)
                              (Vectorstore.page_content bad)) batch
    then Some "embedding failed" else None in
  {| Vectorstore.from_documents_exn := refuse;
     Vectorstore.add_documents_exn := fun _ => refuse;
     Vectorstore.save_local_exn := fun _ => None;
     Vectorstore.load_local_exn := fun _ => None;
     Vectorstore.rmtree_exn := None;
     Vectorstore.cross_encoder_exn := None;
     Vectorstore.asimilarity_search :=
       fun docs _ k => Ok (firstn (Z.to_nat k) docs);
     Vectorstore.ainvoke :=
       fun docs n _ => Ok (firstn (Z.to_nat (default 0%Z n)) docs) |}.

Definition ibuprofen : Vectorstore.Document := doc "ibuprofen" "kg:4".
Definition warfarin : Vectorstore.Document := doc "warfarin" "kg:5".

(** A store made with the given fields where no directory exists. *)
Definition store (size : Z) (rerank : bool) : Vectorstore.VectorStore :=
  Vectorstore.new quiet size rerank (Some 4%Z) None.

(** A store made over a directory that holds one document. *)
Definition loaded_store : Vectorstore.VectorStore :=
  Vectorstore.new quiet 200 true (Some 4%Z) (Some [aspirin1]).

(** Three documents ingested one per batch while FAISS refuses the
    second. *)
Definition partly_ingested : Vectorstore.VectorStore :=
  run (Vectorstore._create_vector_index (rejects ibuprofen) (store 1 false)
         [aspirin1; ibuprofen; warfarin])
      (store 1 false).

(** The loaded store after its index was deleted and another document
    ingested. *)
Definition reingested : Vectorstore.VectorStore :=
  run (Vectorstore._create_vector_index quiet
         (Vectorstore.delete_index quiet loaded_store) [ibuprofen])
      loaded_store.

(** The first answer is final. *)
Definition direct : Rag_chain.Env :=
  {| Rag_chain.hybrid_retrieval := fun _ _ => Ok "context";
     Rag_chain.llm_initial := fun _ => Ok (Rag_chain.Other "a salicylate");
     Rag_chain.llm_invoke := fun _ => Raise "not called";
     Rag_chain.pubmed_invoke := fun _ => Raise "not called" |}.

(** The first answer asks for the tool, the tool answers, and the second
    generation call raises. *)
Definition second_call_down : Rag_chain.Env :=
  {| Rag_chain.hybrid_retrieval := fun _ _ => Ok "context";
     Rag_chain.llm_initial :=
       fun _ => Ok (Rag_chain.WithContent "TOOL_USE: need more info");
     Rag_chain.llm_invoke := fun _ => Raise "rate limit exceeded";
     Rag_chain.pubmed_invoke := fun _ => Ok "results" |}.

(** The first generation call raises for one question, and answers the
    others. *)
Definition fails_on (bad : string) : Rag_chain.Env :=
  {| Rag_chain.hybrid_retrieval :=
       fun q _ => if String.eqb q bad then Raise "graph unreachable"
                  else Ok "context";
     Rag_chain.llm_initial := fun _ => Ok (Rag_chain.WithContent "an answer");
     Rag_chain.llm_invoke := fun _ => Ok (Rag_chain.WithContent "an answer");
     Rag_chain.pubmed_invoke := fun _ => Ok "results" |}.

(** The retriever raises. *)
Definition retriever_down : Rag_chain.Env :=
  {| Rag_chain.hybrid_retrieval := fun _ _ => Raise "graph unreachable";
     Rag_chain.llm_initial := fun _ => Ok (Rag_chain.WithContent "an answer");
     Rag_chain.llm_invoke := fun _ => Ok (Rag_chain.WithContent "an answer");
     Rag_chain.pubmed_invoke := fun _ => Ok "results" |}.

(** The first answer asks for the tool, the tool answers, the second
    answer is final. *)
Definition fallback : Rag_chain.Env :=
  {| Rag_chain.hybrid_retrieval := fun _ _ => Ok "context";
     Rag_chain.llm_initial :=
       fun _ => Ok (Rag_chain.WithContent "TOOL_USE: need more info");
     Rag_chain.llm_invoke := fun _ => Ok (Rag_chain.WithContent "a real answer");
     Rag_chain.pubmed_invoke := fun _ => Ok "results" |}.

(** The first answer asks for the tool, and the tool raises. *)
Definition tool_down : Rag_chain.Env :=
  {| Rag_chain.hybrid_retrieval := fun _ _ => Ok "context";
     Rag_chain.llm_initial :=
       fun _ => Ok (Rag_chain.WithContent "TOOL_USE: need more info");
     Rag_chain.llm_invoke := fun _ => Ok (Rag_chain.WithContent "a real answer");
     Rag_chain.pubmed_invoke := fun _ => Raise "HTTP Error 429" |}.

Definition turn (n : nat) : Rag_chain.Turn :=
  {| Rag_chain.question := String (ascii_of_nat (65 + n)) "?";
     Rag_chain.answer := String (ascii_of_nat (97 + n)) "." |}.

End Scenario.

(** * Properties *)

(** ** The digest agrees with [hashlib] on reference inputs *)

Example md5_empty :
  MD5.hexdigest (Py.encode_utf8 "") = "d41d8cd98f00b204e9800998ecf8427e"%string.
Proof. vm_compute. reflexivity. Qed.

Example md5_abc :
  MD5.hexdigest (Py.encode_utf8 "abc") = "900150983cd24fb0d6963f7d28e17f72"%string.
Proof. vm_compute. reflexivity. Qed.

Example md5_space :
  MD5.hexdigest (Py.encode_utf8 " ") = "7215ee9c7d9dc229d2921a40e899ec5f"%string.
Proof. vm_compute. reflexivity. Qed.

Example md5_two_blocks :
  MD5.hexdigest (Py.encode_utf8
    "xxxxxxxxxxxxxxxxxxxxxxxxxxxxxxxxxxxxxxxxxxxxxxxxxxxxxxxx")
  = "668a72d5ba17f08e62dabcafad6db14b"%string.
Proof. vm_compute. reflexivity. Qed.

Example md5_nbsp :
  MD5.hexdigest (Py.encode_utf8 (String (ascii_of_nat 160) EmptyString))
  = "8df6fbcc43d31d99e5112eb009ed8a2d"%string.
Proof. vm_compute. reflexivity. Qed.


(** ** Strings *)

Section Strings.
Import Py.
Local Open Scope string_scope.

Lemma prefix_append (x rest : string) : String.prefix x (x +:+ rest) = true.
Proof.
  induction x as [|c x IH]; simpl.
  - destruct rest; reflexivity.
  - destruct (ascii_dec c c); [exact IH | congruence].
Qed.

Lemma prefix_append_l (x s rest : string) :
  String.prefix x s = true -> String.prefix x (s +:+ rest) = true.
Proof.
  revert s. induction x as [|c x IH]; intros s H.
  - destruct (s +:+ rest); reflexivity.
  - destruct s as [|c' s]; simpl in *; [discriminate|].
    destruct (ascii_dec c c'); [auto | discriminate].
Qed.

Lemma contains_nil (x : string) : contains x "" = String.prefix x "".
Proof. unfold contains. apply orb_false_r. Qed.

Lemma contains_cons (x : string) (c : ascii) (s : string) :
  contains x (String c s) = String.prefix x (String c s) || contains x s.
Proof. reflexivity. Qed.

Lemma contains_prefix (x s : string) :
  String.prefix x s = true -> contains x s = true.
Proof.
  intros H. destruct s; [rewrite contains_nil | rewrite contains_cons, H]; auto.
Qed.

Lemma contains_append_r (x pre s : string) :
  contains x s = true -> contains x (pre +:+ s) = true.
Proof.
  intros H. induction pre as [|c pre IH]; [exact H|].
  change (String c pre +:+ s) with (String c (pre +:+ s)).
  rewrite contains_cons, IH. apply orb_true_r.
Qed.

Lemma contains_append_l (x s rest : string) :
  contains x s = true -> contains x (s +:+ rest) = true.
Proof.
  induction s as [|c s IH]; intros H.
  - rewrite contains_nil in H. apply contains_prefix.
    exact (prefix_append_l x "" rest H).
  - rewrite contains_cons in H.
    change (String c s +:+ rest) with (String c (s +:+ rest)).
    rewrite contains_cons.
    apply orb_true_iff in H as [H|H].
    + change (String c (s +:+ rest)) with (String c s +:+ rest).
      rewrite (prefix_append_l _ _ rest H). reflexivity.
    + rewrite (IH H). apply orb_true_r.
Qed.

Lemma contains_refl (x : string) : contains x x = true.
Proof.
  apply contains_prefix. induction x as [|c x IH]; simpl; [reflexivity|].
  destruct (ascii_dec c c); [exact IH | congruence].
Qed.

(** Whether stripping leaves something. *)
Lemma lstrip_all_space (s : string) : truthy (lstrip s) = negb (all_space s).
Proof.
  induction s as [|c s IH]; simpl; [reflexivity|].
  destruct (isspace c); simpl; [exact IH | reflexivity].
Qed.

Lemma rstrip_truthy (s : string) : truthy (rstrip s) = negb (all_space s).
Proof.
  induction s as [|c s IH]; simpl; [reflexivity|].
  destruct (rstrip s) eqn:E; simpl in *.
  - destruct (isspace c); simpl; [exact IH | reflexivity].
  - rewrite <- (negb_involutive (all_space s)), <- IH. simpl.
    rewrite andb_false_r. reflexivity.
Qed.

Lemma lstrip_keeps_all_space (s : string) :
  all_space (lstrip s) = all_space s.
Proof.
  induction s as [|c s IH]; simpl; [reflexivity|].
  destruct (isspace c) eqn:E; simpl; [exact IH | rewrite E; reflexivity].
Qed.

Lemma strip_truthy (s : string) : truthy (strip s) = negb (all_space s).
Proof.
  unfold strip. rewrite rstrip_truthy, lstrip_keeps_all_space. reflexivity.
Qed.

End Strings.

(** ** Conversation memory *)

Section Memory.
Import Py Rag_chain.

Lemma add_to_memory_max (st : RAGChain) (q a : string) :
  max_memory (_add_to_memory st q a) = max_memory st.
Proof. unfold _add_to_memory. destruct (_ <? _)%Z; reflexivity. Qed.

Lemma appends_max (turns : list Turn) (st : RAGChain) :
  max_memory (appends st turns) = max_memory st.
Proof.
  revert st. induction turns as [|t turns IH]; intros st; simpl; [reflexivity|].
  unfold appends in *. simpl. rewrite IH. apply add_to_memory_max.
Qed.

(** One append to a memory within its bound keeps the last [max_memory]
    turns of the extended sequence. *)
Lemma add_to_memory_last_n (st : RAGChain) (q a : string) :
  (0 <= max_memory st)%Z ->
  (Z.of_nat (length (memory st)) <= max_memory st)%Z ->
  memory (_add_to_memory st q a)
  = last_n (Z.to_nat (max_memory st))
           (memory st ++ [{| question := q; answer := a |}]).
Proof.
  intros Hmax Hlen. unfold _add_to_memory, last_n, pop0.
  set (m := memory st ++ _).
  assert (Hm : length m = S (length (memory st))).
  { unfold m. rewrite length_app. simpl. lia. }
  destruct (Z.ltb_spec (max_memory st) (Z.of_nat (length m))); simpl.
  - replace (length m - Z.to_nat (max_memory st)) with 1 by lia.
    destruct m; reflexivity.
  - replace (length m - Z.to_nat (max_memory st)) with 0 by lia. reflexivity.
Qed.

Lemma last_n_length {A} (n : nat) (l : list A) :
  length (last_n n l) = Nat.min n (length l).
Proof. unfold last_n. rewrite length_skipn. lia. Qed.

Lemma last_n_app {A} (n : nat) (l1 l2 : list A) :
  last_n n (last_n n l1 ++ l2) = last_n n (l1 ++ l2).
Proof.
  unfold last_n.
  rewrite !length_app, length_skipn.
  set (d := length l1 - n).
  assert (Hd : d <= length l1) by (unfold d; lia).
  replace (skipn d l1 ++ l2) with (skipn d (l1 ++ l2)).
  2:{ rewrite skipn_app. replace (d - length l1) with 0 by lia. reflexivity. }
  rewrite skipn_skipn. f_equal. unfold d. lia.
Qed.

(** After any run of appends from a memory within its bound, the memory
    is the last [max_memory] turns of everything it was given. *)
Lemma appends_last_n (turns : list Turn) (st : RAGChain) :
  (0 <= max_memory st)%Z ->
  (Z.of_nat (length (memory st)) <= max_memory st)%Z ->
  memory (appends st turns)
  = last_n (Z.to_nat (max_memory st)) (memory st ++ turns).
Proof.
  revert st. induction turns as [|t turns IH]; intros st Hmax Hlen.
  - simpl. rewrite app_nil_r. unfold last_n.
    replace (_ - _) with 0 by lia. reflexivity.
  - change (appends st (t :: turns))
      with (appends (_add_to_memory st (question t) (answer t)) turns).
    pose proof (add_to_memory_last_n st (question t) (answer t) Hmax Hlen) as Hone.
    rewrite IH.
    + rewrite add_to_memory_max, Hone. destruct t as [q a]. simpl.
      rewrite last_n_app, <- app_assoc. reflexivity.
    + rewrite add_to_memory_max. exact Hmax.
    + rewrite add_to_memory_max, Hone, last_n_length. lia.
Qed.

(** C6. For every [max_memory] (a bound, so not negative) and every run of
    [_add_to_memory] calls on a new chain, the memory holds at most
    [max_memory] turns once an append is done, and eviction is first in,
    first out: the memory is the last [max_memory] turns given, in their
    order, so after [max_memory + 5] appends it has [max_memory] turns,
    the given ones without the first five. *)
Theorem memory_bounded_fifo (max : Z) (turns : list Turn) :
  (0 <= max)%Z ->
  let st := appends (init max) turns in
  (Z.of_nat (length (memory st)) <= max)%Z
  /\ memory st = last_n (Z.to_nat max) turns
  /\ (Z.of_nat (length turns) = max + 5 ->
      Z.of_nat (length (memory st)) = max /\ memory st = skipn 5 turns)%Z.
Proof.
  intros Hmax st.
  assert (Hst : memory st = last_n (Z.to_nat max) turns).
  { unfold st. rewrite appends_last_n; simpl; [reflexivity | lia | lia]. }
  split; [|split].
  - rewrite Hst, last_n_length. lia.
  - exact Hst.
  - intros Hlen. rewrite Hst, last_n_length. split; [lia|].
    unfold last_n. f_equal. lia.
Qed.

Lemma memory_bounded_fifo_witness :
  let turns := map Scenario.turn (seq 0 7) in
  memory (appends (init 2) turns) = [Scenario.turn 5; Scenario.turn 6]
  /\ memory (appends (init 2) turns) = skipn 5 turns.
Proof.
  intros turns.
  destruct (memory_bounded_fifo 2 turns ltac:(lia)) as (_ & Hlast & Hfive).
  split; [exact Hlast|].
  apply Hfive. reflexivity.
Defined.

(** With a negative [max_memory] every append is undone at once. *)
Lemma add_to_memory_negative (st : RAGChain) (q a : string) :
  (max_memory st < 0)%Z -> memory st = [] ->
  memory (_add_to_memory st q a) = [].
Proof.
  intros Hneg Hmem. unfold _add_to_memory. rewrite Hmem. simpl length.
  destruct (Z.ltb_spec (max_memory st) (Z.of_nat 1)); [reflexivity | lia].
Qed.

(** The turn just added is the last of the memory, unless the memory was
    empty and has no room at all. *)
Lemma add_to_memory_last (st : RAGChain) (q a : string) :
  (1 <= max_memory st)%Z ->
  last (memory (_add_to_memory st q a)) = Some {| question := q; answer := a |}.
Proof.
  intros Hmax. unfold _add_to_memory, pop0.
  destruct (Z.ltb_spec (max_memory st) (Z.of_nat (length (memory st ++ [{| question := q; answer := a |}]))));
    simpl.
  - destruct (memory st) as [|t m] eqn:E; simpl in *; [lia|].
    apply last_snoc.
  - apply last_snoc.
Qed.

End Memory.

(** ** The answer protocol of [invoke] *)

Section Invoke.
Import Py Rag_chain.
Local Open Scope string_scope.

Variable env : Env.

Lemma invoke_retriever_raises (st : RAGChain) (q : string) (k : Z) (e : string) :
  hybrid_retrieval env q k = Raise e -> invoke env st q k = (st, Raise e).
Proof. intros H. unfold invoke. rewrite H. reflexivity. Qed.

Lemma invoke_first_call_raises (st : RAGChain) (q : string) (k : Z)
    (context e : string) :
  hybrid_retrieval env q k = Ok context ->
  llm_initial env (prompt_format context (_format_history st) q) = Raise e ->
  invoke env st q k = (st, Raise e).
Proof. intros H1 H2. unfold invoke. rewrite H1, H2. reflexivity. Qed.

(** C3, amended. [invoke] returns an answer string, and adds the turn to
    the memory, whenever the context retriever and the first generation
    call return, whatever the literature tool and the second generation
    call do; an exception of the retriever or of the first generation
    call reaches the caller, and the memory is left as it was. *)
Theorem invoke_returns_or_propagates (st : RAGChain) (q : string) (k : Z) :
  (forall context response,
      hybrid_retrieval env q k = Ok context ->
      llm_initial env (prompt_format context (_format_history st) q) = Ok response ->
      exists answer, invoke env st q k = (_add_to_memory st q answer, Ok answer))
  /\ (forall e,
         hybrid_retrieval env q k = Raise e -> invoke env st q k = (st, Raise e))
  /\ (forall context e,
         hybrid_retrieval env q k = Ok context ->
         llm_initial env (prompt_format context (_format_history st) q) = Raise e ->
         invoke env st q k = (st, Raise e)).
Proof.
  split; [|split].
  - intros context response H1 H2. unfold invoke. rewrite H1, H2.
    eexists. reflexivity.
  - apply invoke_retriever_raises.
  - apply invoke_first_call_raises.
Qed.



End Invoke.

(** C3 as stated fails: an exception of the context retriever leaves
    [invoke] as it came. *)
Lemma invoke_propagates_retriever_error :
  Rag_chain.invoke Scenario.retriever_down (Rag_chain.init 10) "What is aspirin?" 3
  = (Rag_chain.init 10, Py.Raise "graph unreachable").
Proof. reflexivity. Qed.

Lemma invoke_returns_or_propagates_witness :
  (exists answer,
      Rag_chain.invoke Scenario.tool_down (Rag_chain.init 10) "What is aspirin?" 3
      = (Rag_chain._add_to_memory (Rag_chain.init 10) "What is aspirin?" answer,
         Py.Ok answer))
  /\ Rag_chain.invoke Scenario.retriever_down (Rag_chain.init 10) "What is aspirin?" 3
     = (Rag_chain.init 10, Py.Raise "graph unreachable").
Proof.
  split.
  - destruct (invoke_returns_or_propagates Scenario.tool_down (Rag_chain.init 10)
                "What is aspirin?" 3) as (Hret & _ & _).
    apply (Hret "context" (Rag_chain.WithContent "TOOL_USE: need more info"));
      reflexivity.
  - destruct (invoke_returns_or_propagates Scenario.retriever_down
                (Rag_chain.init 10) "What is aspirin?" 3) as (_ & Hraise & _).
    apply Hraise. reflexivity.
Defined.



(** ** Fingerprints *)

Section Fingerprints.
Import Py Vectorstore.
Local Open Scope string_scope.

Lemma le_bytes_length (n : nat) (x : Z) : length (MD5.le_bytes n x) = n.
Proof. revert x. induction n as [|n IH]; intros x; simpl; [|rewrite IH]; reflexivity. Qed.

Lemma hex_length (bytes : list Z) :
  String.length (MD5.hex bytes) = 2 * length bytes.
Proof. induction bytes as [|b bytes IH]; simpl; [reflexivity | rewrite IH; lia]. Qed.

(** A digest is 32 hex characters, whatever the message. *)
Lemma hexdigest_length (msg : list Z) : String.length (MD5.hexdigest msg) = 32.
Proof.
  unfold MD5.hexdigest, MD5.digest.
  rewrite hex_length, !length_app, !le_bytes_length. reflexivity.
Qed.

Lemma hexdigest_truthy (msg : list Z) : truthy (MD5.hexdigest msg) = true.
Proof.
  pose proof (hexdigest_length msg) as H.
  destruct (MD5.hexdigest msg); [discriminate H | reflexivity].
Qed.

Lemma truthy_empty (s : string) : truthy s = false <-> s = "".
Proof. destruct s; simpl; split; congruence. Qed.

(** The fingerprint depends on the content alone. *)
Lemma get_document_hash_content (d1 d2 : Document) :
  page_content d1 = page_content d2 ->
  _get_document_hash d1 = _get_document_hash d2.
Proof. intros H. unfold _get_document_hash. rewrite H. reflexivity. Qed.

Lemma get_document_hash_truthy (doc : Document) :
  truthy (_get_document_hash doc) = truthy (page_content doc).
Proof.
  unfold _get_document_hash.
  destruct (truthy (page_content doc)); [apply hexdigest_truthy | reflexivity].
Qed.

Lemma valid_not_all_space (doc : Document) :
  valid doc = true -> all_space (page_content doc) = false.
Proof.
  unfold valid. rewrite strip_truthy. intros H.
  apply andb_true_iff in H as [_ H]. apply negb_true_iff in H. exact H.
Qed.

Lemma filter_valid_docs_In (doc : Document) (documents : list Document) :
  In doc (_filter_valid_docs documents) <-> In doc documents /\ valid doc = true.
Proof. unfold _filter_valid_docs. apply filter_In. Qed.

(** C8, amended. For a document whose content is empty,
    [_get_document_hash] returns the empty string, which
    [_is_new_document] accepts for no fingerprint set; for a document
    whose content is not empty, whitespace-only content included, it
    returns the MD5 hex digest of the content, 32 characters long; a
    document whose content is whitespace only is dropped by
    [_filter_valid_docs]. *)
Theorem get_document_hash_cases (doc : Document) :
  (page_content doc = "" ->
   _get_document_hash doc = "" /\ forall st, _is_new_document st doc = false)
  /\ (page_content doc <> "" ->
      _get_document_hash doc = MD5.hexdigest (encode_utf8 (page_content doc))
      /\ String.length (_get_document_hash doc) = 32)
  /\ (all_space (page_content doc) = true ->
      forall documents, ~ In doc (_filter_valid_docs documents)).
Proof.
  split; [|split].
  - intros H. unfold _is_new_document, _get_document_hash. rewrite H. simpl.
    split; reflexivity.
  - intros H. unfold _get_document_hash.
    destruct (page_content doc) eqn:E; [congruence|]. simpl truthy. cbv iota.
    split; [reflexivity | apply hexdigest_length].
  - intros H documents Hin. apply filter_valid_docs_In in Hin as [_ Hv].
    apply valid_not_all_space in Hv. congruence.
Qed.

End Fingerprints.

(** C8 as stated fails: a single space has a fingerprint like any other
    content, and the store takes it for new. *)
Lemma whitespace_has_fingerprint :
  Py.all_space (Vectorstore.page_content Scenario.blank) = true
  /\ Vectorstore._get_document_hash Scenario.blank
     = "7215ee9c7d9dc229d2921a40e899ec5f"%string
  /\ Vectorstore._is_new_document Scenario.fresh_store Scenario.blank = true.
Proof. vm_compute. auto. Qed.

Lemma get_document_hash_cases_witness :
  Vectorstore._get_document_hash (Scenario.doc "" "kg:0") = ""%string
  /\ String.length (Vectorstore._get_document_hash Scenario.blank) = 32
  /\ ~ In Scenario.blank
         (Vectorstore._filter_valid_docs [Scenario.aspirin1; Scenario.blank]).
Proof.
  split; [|split].
  - destruct (get_document_hash_cases (Scenario.doc "" "kg:0")) as (H & _ & _).
    apply H. reflexivity.
  - destruct (get_document_hash_cases Scenario.blank) as (_ & H & _).
    apply H. discriminate.
  - destruct (get_document_hash_cases Scenario.blank) as (_ & _ & H).
    apply H. reflexivity.
Defined.

(** ** Search and deletion *)

Section Search.
Import Py Vectorstore.
Local Open Scope string_scope.

Variable env : Env.

Lemma similarity_search_no_index (st : VectorStore) (query : string) (k : Z) :
  vector_index st = None -> similarity_search env st query k = (st, []).
Proof. intros H. unfold similarity_search. rewrite H. reflexivity. Qed.

(** With reranking switched off the search is the direct one (and empty
    when FAISS raises). *)
Lemma similarity_search_direct (st : VectorStore) (query : string) (k : Z)
    (a : addr) :
  vector_index st = Some a -> use_reranker st = false ->
  similarity_search env st query k
  = (st, try_except (asimilarity_search env (deref st a) query k) (fun _ => [])).
Proof. intros H1 H2. unfold similarity_search. rewrite H1, H2. reflexivity. Qed.

(** C7, where it fails. With an index, reranking switched on and no
    compression retriever built, [similarity_search] returns the empty
    list for every query and [k]: it takes the reranked branch, which has
    nothing to ask; the index is not searched. *)
Theorem similarity_search_without_retriever (st : VectorStore) (query : string)
    (k : Z) (a : addr) :
  vector_index st = Some a ->
  use_reranker st = true ->
  compression_retriever st = None ->
  similarity_search env st query k = (st, []).
Proof.
  intros H1 H2 H3. unfold similarity_search, perform_reranked_search.
  rewrite H1, H2, H3. reflexivity.
Qed.

(** C9, amended. After a [delete_index] called while the directory
    exists, whether or not its removal succeeded, [vector_index] is
    [None] and the fingerprint set is empty, so a search returns the empty
    list; the directory is gone when the removal succeeded. *)
Theorem delete_index_resets (st : VectorStore) :
  disk st <> None ->
  let st' := delete_index env st in
  vector_index st' = None
  /\ added_doc_hashes st' = ∅
  /\ (forall query k, snd (similarity_search env st' query k) = [])
  /\ (rmtree_exn env = None -> disk st' = None).
Proof.
  intros Hdisk st'.
  assert (Hidx : vector_index st' = None).
  { unfold st', delete_index. destruct (disk st); [reflexivity | congruence]. }
  split; [exact Hidx|]. split; [|split].
  - unfold st', delete_index. destruct (disk st); [reflexivity | congruence].
  - intros query k. rewrite similarity_search_no_index by exact Hidx. reflexivity.
  - intros Hrm. unfold st', delete_index.
    destruct (disk st); [|congruence]. rewrite Hrm. reflexivity.
Qed.

(** Without a directory [delete_index] returns at once. *)
Lemma delete_index_no_directory (st : VectorStore) :
  disk st = None -> delete_index env st = st.
Proof. intros H. unfold delete_index. rewrite H. reflexivity. Qed.

(** *** [batch_query] *)

Lemma similarity_search_state (st : VectorStore) (query : string) (k : Z) :
  fst (similarity_search env st query k) = searched k st.
Proof.
  unfold similarity_search, searched, perform_reranked_search.
  destruct (vector_index st); [|reflexivity].
  destruct (use_reranker st); [|reflexivity].
  destruct (compression_retriever st); reflexivity.
Qed.

Lemma searched_idem (k : Z) (st : VectorStore) :
  searched k (searched k st) = searched k st.
Proof.
  unfold searched.
  destruct (vector_index st) eqn:E1; [|rewrite E1; reflexivity].
  destruct (use_reranker st) eqn:E2; [|rewrite E1, E2; reflexivity].
  destruct (compression_retriever st) eqn:E3; [|rewrite E1, E2, E3; reflexivity].
  simpl. rewrite E1, E2. reflexivity.
Qed.

(** A search answers the same after another search with the same [k]. *)
Lemma similarity_search_searched (st : VectorStore) (query : string) (k : Z) :
  snd (similarity_search env (searched k st) query k)
  = snd (similarity_search env st query k).
Proof.
  unfold similarity_search, searched, perform_reranked_search.
  destruct (vector_index st) eqn:E1; [|rewrite E1; reflexivity].
  destruct (use_reranker st) eqn:E2; [|rewrite E1, E2; reflexivity].
  destruct (compression_retriever st) eqn:E3; [|rewrite E1, E2, E3; reflexivity].
  simpl. rewrite E1, E2. reflexivity.
Qed.

Lemma gather_searches_searched (queries : list string) (st : VectorStore) (k : Z) :
  snd (gather_searches env (searched k st) queries k)
  = snd (gather_searches env st queries k).
Proof.
  revert st. induction queries as [|q queries IH]; intros st; [reflexivity|].
  simpl.
  pose proof (similarity_search_state (searched k st) q k) as Hs1.
  pose proof (similarity_search_state st q k) as Hs2.
  pose proof (similarity_search_searched st q k) as Hr.
  destruct (similarity_search env (searched k st) q k) as [s1 r1].
  destruct (similarity_search env st q k) as [s2 r2].
  simpl in *. subst s1 s2 r1. rewrite searched_idem.
  destruct (gather_searches env (searched k st) queries k) as [s3 rs]. reflexivity.
Qed.

Lemma gather_searches_map (queries : list string) (st : VectorStore) (k : Z) :
  snd (gather_searches env st queries k)
  = map (fun q => snd (similarity_search env st q k)) queries.
Proof.
  revert st. induction queries as [|q queries IH]; intros st; [reflexivity|].
  simpl.
  pose proof (similarity_search_state st q k) as Hs.
  destruct (similarity_search env st q k) as [s1 r1]. simpl in Hs. subst s1.
  pose proof (gather_searches_searched queries st k) as Hg.
  destruct (gather_searches env (searched k st) queries k) as [s2 rs].
  simpl in *. rewrite Hg, IH. reflexivity.
Qed.

(** C10. For every list of queries [batch_query] returns one result per
    query, in the order of the queries, each the result of
    [similarity_search] for that query; without a vector index it returns
    as many empty lists as there are queries. It never raises. *)
Theorem batch_query_one_result_per_query (st : VectorStore)
    (queries : list string) (k : Z) :
  length (snd (batch_query env st queries k)) = length queries
  /\ snd (batch_query env st queries k)
     = map (fun q => snd (similarity_search env st q k)) queries
  /\ (vector_index st = None ->
      snd (batch_query env st queries k) = repeat [] (length queries)).
Proof.
  assert (E : snd (batch_query env st queries k)
              = map (fun q => snd (similarity_search env st q k)) queries).
  { unfold batch_query. destruct (vector_index st) eqn:Hi.
    - apply gather_searches_map.
    - simpl. apply map_ext. intros q.
      rewrite similarity_search_no_index by exact Hi. reflexivity. }
  split; [|split].
  - rewrite E. apply length_map.
  - exact E.
  - intros Hi. unfold batch_query. rewrite Hi. simpl.
    induction queries as [|q queries IH]; simpl; [reflexivity|].
    f_equal. apply IH.
    unfold batch_query. rewrite Hi. simpl. apply map_ext. intros q'.
    rewrite similarity_search_no_index by exact Hi. reflexivity.
Qed.

End Search.

(** ** Ingestion *)

Section Ingestion.
Import Py Vectorstore.
Local Open Scope string_scope.
Local Open Scope list_scope.

Variable env : Env.

Lemma update_doc_hashes_fields (batch : list Document) (st : VectorStore) :
  vector_index (_update_doc_hashes st batch) = vector_index st
  /\ heap (_update_doc_hashes st batch) = heap st
  /\ disk (_update_doc_hashes st batch) = disk st
  /\ batch_size (_update_doc_hashes st batch) = batch_size st
  /\ use_reranker (_update_doc_hashes st batch) = use_reranker st
  /\ compression_retriever (_update_doc_hashes st batch) = compression_retriever st.
Proof.
  revert st. induction batch as [|d batch IH]; intros st; [repeat split|].
  unfold _update_doc_hashes in *. simpl.
  destruct (IH (set_added_doc_hashes
                  (added_doc_hashes st ∪ {[_get_document_hash d]}) st))
    as (H1 & H2 & H3 & H4 & H5 & H6).
  rewrite H1, H2, H3, H4, H5, H6. repeat split.
Qed.

Lemma update_doc_hashes_set (batch : list Document) (st : VectorStore) :
  added_doc_hashes (_update_doc_hashes st batch)
  = added_doc_hashes st ∪ hashes_of batch.
Proof.
  revert st. induction batch as [|d batch IH]; intros st.
  - unfold hashes_of. simpl. rewrite (right_id_L ∅ (∪)). reflexivity.
  - unfold _update_doc_hashes in *. simpl. rewrite IH. simpl.
    unfold hashes_of. simpl. rewrite (assoc_L (∪)). reflexivity.
Qed.

Lemma indexed_update_doc_hashes (batch : list Document) (st : VectorStore) :
  indexed (_update_doc_hashes st batch) = indexed st.
Proof.
  destruct (update_doc_hashes_fields batch st) as (H1 & H2 & _).
  unfold indexed, deref. rewrite H1, H2. reflexivity.
Qed.

Lemma save_local_index_fields (st : VectorStore) :
  vector_index (_save_local_index env st) = vector_index st
  /\ heap (_save_local_index env st) = heap st
  /\ added_doc_hashes (_save_local_index env st) = added_doc_hashes st.
Proof.
  unfold _save_local_index.
  destruct (vector_index st) as [a|] eqn:E; [|auto].
  destruct (save_local_exn env (deref st a)); simpl; auto.
Qed.

Lemma indexed_save_local_index (st : VectorStore) :
  indexed (_save_local_index env st) = indexed st.
Proof.
  destruct (save_local_index_fields st) as (H1 & H2 & _).
  unfold indexed, deref. rewrite H1, H2. reflexivity.
Qed.

(** *** A batch whose FAISS call raises *)

Lemma add_batch_failure (st : VectorStore) (batch : list Document) (e : string) :
  mutate_index env st batch = Raise e ->
  _add_batch_and_persist env st batch = (st, 0%Z).
Proof.
  intros H. unfold _add_batch_and_persist.
  destruct batch; [reflexivity|]. rewrite H. reflexivity.
Qed.

(** C2, amended. For every non-empty batch whose FAISS call (creating the
    index or adding to it) raises, [_add_batch_and_persist] returns 0 and
    raises nothing, and adds no fingerprint: the store, its fingerprint set
    and the documents of the vector index are those from before the call.
    So a fingerprint of a document of the batch is in the set afterwards
    exactly when it was there before the call. *)
Theorem add_batch_failure_leaves_no_trace (st : VectorStore)
    (batch : list Document) (e : string) :
  batch <> [] ->
  mutate_index env st batch = Raise e ->
  let st' := fst (_add_batch_and_persist env st batch) in
  snd (_add_batch_and_persist env st batch) = 0%Z
  /\ st' = st
  /\ added_doc_hashes st' = added_doc_hashes st
  /\ length (indexed st') = length (indexed st)
  /\ (forall doc, In doc batch ->
        _get_document_hash doc ∈ added_doc_hashes st'
        <-> _get_document_hash doc ∈ added_doc_hashes st).
Proof.
  intros _ H st'. unfold st'. rewrite (add_batch_failure st batch e H). simpl.
  repeat split; auto.
Qed.

(** *** A batch whose FAISS call returns *)

Lemma mutate_index_success (st : VectorStore) (batch : list Document) :
  faiss_works env ->
  exists st1, mutate_index env st batch = Ok st1
              /\ indexed st1 = indexed st ++ batch
              /\ added_doc_hashes st1 = added_doc_hashes st.
Proof.
  intros [Hfrom Hadd]. unfold mutate_index.
  destruct (vector_index st) as [a|] eqn:E.
  - rewrite Hadd. eexists. split; [reflexivity|].
    unfold indexed, deref. simpl. rewrite E.
    rewrite lookup_insert_eq. split; reflexivity.
  - rewrite Hfrom. unfold alloc. eexists. split; [reflexivity|].
    unfold indexed, deref. simpl. rewrite E.
    rewrite lookup_insert_eq. split; reflexivity.
Qed.

Lemma add_batch_success (st : VectorStore) (batch : list Document) :
  faiss_works env ->
  indexed (fst (_add_batch_and_persist env st batch)) = indexed st ++ batch
  /\ added_doc_hashes (fst (_add_batch_and_persist env st batch))
     = added_doc_hashes st ∪ hashes_of batch.
Proof.
  intros Hw. unfold _add_batch_and_persist.
  destruct batch as [|d batch].
  - simpl. rewrite app_nil_r. unfold hashes_of. simpl.
    rewrite (right_id_L ∅ (∪)). split; reflexivity.
  - destruct (mutate_index_success st (d :: batch) Hw) as (st1 & E & Hi & Hh).
    rewrite E. cbn [bind try_except fst].
    rewrite indexed_update_doc_hashes, indexed_save_local_index, Hi.
    rewrite update_doc_hashes_set.
    destruct (save_local_index_fields st1) as (_ & _ & Hs). rewrite Hs, Hh.
    split; reflexivity.
Qed.

Lemma gather_batches_success (batches : list (list Document)) (st : VectorStore) :
  faiss_works env ->
  indexed (gather_batches env st batches) = indexed st ++ concat batches
  /\ added_doc_hashes (gather_batches env st batches)
     = added_doc_hashes st ∪ hashes_of (concat batches).
Proof.
  intros Hw. revert st. induction batches as [|b batches IH]; intros st.
  - simpl. rewrite app_nil_r. unfold hashes_of. simpl.
    rewrite (right_id_L ∅ (∪)). split; reflexivity.
  - unfold gather_batches in *. simpl.
    destruct (IH (fst (_add_batch_and_persist env st b))) as [Hi Hh].
    destruct (add_batch_success st b Hw) as [Hi1 Hh1].
    rewrite Hi, Hh, Hi1, Hh1. split.
    + rewrite app_assoc. reflexivity.
    + unfold hashes_of. rewrite map_app, list_to_set_app_L, (assoc_L (∪)).
      reflexivity.
Qed.

(** *** Batches *)

Lemma chunks_concat (l : list Document) (size n : nat) :
  concat (map (fun j => firstn size (skipn (j * size) l)) (seq 0 n))
  = firstn (n * size) l.
Proof.
  induction n as [|n IH]; [reflexivity|].
  rewrite seq_S, map_app, concat_app, IH. simpl.
  rewrite app_nil_r, take_take_drop. f_equal. lia.
Qed.

(** With a positive [batch_size] the batches are the documents, cut in
    order. *)
Lemma create_batches_concat (st : VectorStore) (documents : list Document) :
  (0 < batch_size st)%Z ->
  exists batches,
    _create_batches st documents = Ok batches /\ concat batches = documents.
Proof.
  intros Hbs. unfold _create_batches, range0.
  destruct (Z.eqb_spec (batch_size st) 0) as [Hz|Hz]; [lia|].
  destruct (Z.ltb_spec 0 (batch_size st)); [|lia].
  simpl. eexists. split; [reflexivity|].
  rewrite map_map.
  set (n := Z.to_nat ((Z.of_nat (length documents) + batch_size st - 1)
                      / batch_size st)).
  rewrite (map_ext _ (fun j => firstn (Z.to_nat (batch_size st))
                                 (skipn (j * Z.to_nat (batch_size st)) documents))).
  2:{ intros j. unfold slice. f_equal; [f_equal; lia | f_equal; lia]. }
  rewrite chunks_concat. apply firstn_all2.
  pose proof (Z.div_mod (Z.of_nat (length documents) + batch_size st - 1)
                (batch_size st) Hz) as Hdm.
  pose proof (Z.mod_pos_bound (Z.of_nat (length documents) + batch_size st - 1)
                (batch_size st) ltac:(lia)) as Hmod.
  assert (0 <= (Z.of_nat (length documents) + batch_size st - 1) / batch_size st)%Z
    by (apply Z.div_pos; lia).
  unfold n. nia.
Qed.

(** *** The whole ingestion *)

Lemma create_vector_index_new_documents (st : VectorStore)
    (documents : list Document) :
  _create_vector_index env st documents
  = match new_documents st documents with
    | [] => Ok st
    | news =>
        bind (floor_div (Z.of_nat (length news)) (batch_size st))
          (fun _ => bind (_create_batches st news)
                      (fun batches => Ok (gather_batches env st batches)))
    end.
Proof.
  unfold _create_vector_index, new_documents.
  destruct documents as [|d documents]; [reflexivity|].
  destruct (_filter_valid_docs (d :: documents)) as [|v valids]; [reflexivity|].
  destruct (List.filter (_is_new_document st) (v :: valids)); reflexivity.
Qed.

(** When FAISS raises nothing and [batch_size] is positive, an ingestion
    adds the new valid documents, all of them, to the index, and their
    fingerprints to the set. *)
Lemma create_vector_index_success (st : VectorStore) (documents : list Document) :
  faiss_works env -> (0 < batch_size st)%Z ->
  exists st',
    _create_vector_index env st documents = Ok st'
    /\ indexed st' = indexed st ++ new_documents st documents
    /\ added_doc_hashes st'
       = added_doc_hashes st ∪ hashes_of (new_documents st documents).
Proof.
  intros Hw Hbs. rewrite create_vector_index_new_documents.
  destruct (new_documents st documents) as [|d news] eqn:E.
  - exists st. rewrite app_nil_r. unfold hashes_of. simpl.
    rewrite (right_id_L ∅ (∪)). repeat split.
  - unfold floor_div. destruct (Z.eqb_spec (batch_size st) 0); [lia|].
    cbn [bind].
    destruct (create_batches_concat st (d :: news) Hbs) as (batches & Eb & Hc).
    rewrite Eb. cbn [bind]. eexists. split; [reflexivity|].
    destruct (gather_batches_success batches st Hw) as [Hi Hh].
    rewrite Hi, Hh, Hc. split; reflexivity.
Qed.

Lemma elem_of_hashes_of (doc : Document) (docs : list Document) :
  In doc docs -> _get_document_hash doc ∈ hashes_of docs.
Proof.
  intros Hin. unfold hashes_of. apply elem_of_list_to_set.
  apply list_elem_of_In, in_map, Hin.
Qed.

Lemma filter_none {A} (P : A -> bool) (l : list A) :
  (forall x, In x l -> P x = false) -> List.filter P l = [].
Proof.
  induction l as [|x l IH]; intros H; [reflexivity|]. simpl.
  rewrite (H x (or_introl eq_refl)). apply IH. intros y Hy. apply H. right. exact Hy.
Qed.

(** After an ingestion that went through, the same ingestion again finds
    nothing new. *)
Lemma create_vector_index_again (st st' : VectorStore) (documents : list Document) :
  added_doc_hashes st'
  = added_doc_hashes st ∪ hashes_of (new_documents st documents) ->
  _create_vector_index env st' documents = Ok st'.
Proof.
  intros Hh. rewrite create_vector_index_new_documents.
  replace (new_documents st' documents) with (@nil Document); [reflexivity|].
  symmetry. apply filter_none. intros doc Hin.
  unfold _is_new_document. apply andb_false_iff.
  destruct (truthy (_get_document_hash doc)) eqn:Et; [right | left; reflexivity].
  apply bool_decide_eq_false. intros Hnot. apply Hnot. rewrite Hh.
  destruct (_is_new_document st doc) eqn:En.
  - apply elem_of_union_r, elem_of_hashes_of.
    unfold new_documents. apply List.filter_In. split; assumption.
  - apply elem_of_union_l. unfold _is_new_document in En. rewrite Et in En.
    simpl in En. apply bool_decide_eq_false in En.
    destruct (decide (_get_document_hash doc ∈ added_doc_hashes st)); tauto.
Qed.

(** *** Copies of a content *)

Lemma copies_app (content : string) (l1 l2 : list Document) :
  copies content (l1 ++ l2) = copies content l1 + copies content l2.
Proof. unfold copies. rewrite List.filter_app, length_app. reflexivity. Qed.

Lemma copies_filter (content : string) (P : Document -> bool) (l : list Document) :
  (forall doc, page_content doc = content -> P doc = true) ->
  copies content (List.filter P l) = copies content l.
Proof.
  intros HP. unfold copies. induction l as [|d l IH]; [reflexivity|]. simpl.
  destruct (String.eqb_spec (page_content d) content) as [Hc|Hc].
  - rewrite (HP d Hc). simpl.
    destruct (String.eqb_spec (page_content d) content); [|tauto].
    simpl. rewrite IH. reflexivity.
  - destruct (P d); simpl; [|exact IH].
    destruct (String.eqb_spec (page_content d) content); [tauto | exact IH].
Qed.

Lemma copies_cons_same (doc : Document) (l : list Document) :
  copies (page_content doc) (doc :: l) = S (copies (page_content doc) l).
Proof. unfold copies. simpl. rewrite String.eqb_refl. reflexivity. Qed.

(** C1, where it fails. Take a list with two entries of the same valid
    content whose fingerprint the store does not have, a positive
    [batch_size] and FAISS calls that raise nothing. One
    [_create_vector_index] then puts every entry of that content in the
    vector index (two at least, not one) while the set gains the one
    fingerprint they share; and the same call again changes nothing. *)
Theorem create_vector_index_stores_every_copy (st : VectorStore)
    (documents pre mid post : list Document) (d1 d2 : Document) :
  faiss_works env ->
  (0 < batch_size st)%Z ->
  documents = pre ++ d1 :: mid ++ d2 :: post ->
  page_content d1 = page_content d2 ->
  valid d1 = true ->
  _get_document_hash d1 ∉ added_doc_hashes st ->
  exists st',
    _create_vector_index env st documents = Ok st'
    /\ copies (page_content d1) (indexed st')
       = copies (page_content d1) (indexed st)
         + copies (page_content d1) documents
    /\ 2 <= copies (page_content d1) documents
    /\ _get_document_hash d2 = _get_document_hash d1
    /\ _get_document_hash d1 ∈ added_doc_hashes st'
    /\ _create_vector_index env st' documents = Ok st'.
Proof.
  intros Hw Hbs Hdocs Hsame Hvalid Hnew.
  destruct (create_vector_index_success st documents Hw Hbs) as (st' & E & Hi & Hh).
  exists st'. split; [exact E|].
  assert (Hkeep : forall doc, page_content doc = page_content d1 ->
                              valid doc = true /\ _is_new_document st doc = true).
  { intros doc Hc.
    assert (Hv : valid doc = true) by (unfold valid in *; rewrite Hc; exact Hvalid).
    split; [exact Hv|].
    unfold _is_new_document.
    rewrite (get_document_hash_content doc d1 Hc), get_document_hash_truthy.
    unfold valid in Hvalid. apply andb_true_iff in Hvalid as [Ht _].
    rewrite Ht. simpl. apply bool_decide_eq_true. exact Hnew. }
  assert (Hin1 : In d1 documents).
  { rewrite Hdocs. apply in_or_app. right. left. reflexivity. }
  split; [|split; [|split; [|split]]].
  - rewrite Hi, copies_app. f_equal. unfold new_documents, _filter_valid_docs.
    rewrite !copies_filter; [reflexivity | |]; intros doc Hc; apply Hkeep, Hc.
  - rewrite Hdocs, copies_app, copies_cons_same, copies_app, Hsame,
      copies_cons_same. lia.
  - apply get_document_hash_content. symmetry. exact Hsame.
  - rewrite Hh. apply elem_of_union_r, elem_of_hashes_of.
    unfold new_documents. apply List.filter_In. split.
    + apply filter_valid_docs_In. split; [exact Hin1 | apply Hkeep; reflexivity].
    + apply Hkeep. reflexivity.
  - apply (create_vector_index_again st st' documents Hh).
Qed.

(** *** The reranker is set up at construction only *)

(** A store made where no directory exists has no compression retriever,
    and keeps [use_reranker] as given. *)
Lemma new_without_directory (size : Z) (rerank : bool) (n : option Z) :
  compression_retriever (new env size rerank n None) = None
  /\ use_reranker (new env size rerank n None) = rerank
  /\ vector_index (new env size rerank n None) = None.
Proof. unfold new, _load_local_index, _setup_reranker. simpl. destruct rerank; auto. Qed.

Lemma add_batch_keeps_reranker (st : VectorStore) (batch : list Document) :
  use_reranker (fst (_add_batch_and_persist env st batch)) = use_reranker st
  /\ compression_retriever (fst (_add_batch_and_persist env st batch))
     = compression_retriever st.
Proof.
  unfold _add_batch_and_persist. destruct batch as [|d batch]; [auto|].
  destruct (mutate_index env st (d :: batch)) as [st1|e] eqn:E; [|auto].
  cbn [bind try_except fst].
  destruct (update_doc_hashes_fields (d :: batch) (_save_local_index env st1))
    as (_ & _ & _ & _ & Hu & Hc).
  rewrite Hu, Hc.
  assert (Hsave : use_reranker (_save_local_index env st1) = use_reranker st1
                  /\ compression_retriever (_save_local_index env st1)
                     = compression_retriever st1).
  { unfold _save_local_index. destruct (vector_index st1); [|auto].
    destruct (save_local_exn env (deref st1 a)); auto. }
  destruct Hsave as [-> ->].
  unfold mutate_index in E. destruct (vector_index st).
  - destruct (add_documents_exn env (deref st a) (d :: batch)); [discriminate|].
    injection E as <-. auto.
  - destruct (from_documents_exn env (d :: batch)); [discriminate|].
    injection E as <-. auto.
Qed.

Lemma gather_batches_keeps_reranker (batches : list (list Document))
    (st : VectorStore) :
  use_reranker (gather_batches env st batches) = use_reranker st
  /\ compression_retriever (gather_batches env st batches)
     = compression_retriever st.
Proof.
  revert st. induction batches as [|b batches IH]; intros st; [auto|].
  unfold gather_batches in *. simpl.
  destruct (IH (fst (_add_batch_and_persist env st b))) as [-> ->].
  apply add_batch_keeps_reranker.
Qed.

(** No ingestion builds the compression retriever or switches reranking
    off. *)
Lemma create_vector_index_keeps_reranker (st st' : VectorStore)
    (documents : list Document) :
  _create_vector_index env st documents = Ok st' ->
  use_reranker st' = use_reranker st
  /\ compression_retriever st' = compression_retriever st.
Proof.
  rewrite create_vector_index_new_documents.
  destruct (new_documents st documents) as [|d news].
  - intros [= <-]. auto.
  - unfold floor_div. destruct (batch_size st =? 0)%Z; [intros [=]|].
    cbn [bind].
    destruct (_create_batches st (d :: news)) as [batches|]; [|intros [=]].
    cbn [bind]. intros H. injection H as H. subst st'.
    apply gather_batches_keeps_reranker.
Qed.

End Ingestion.

(** ** The properties on the examples *)

Section Examples.
Import Py Vectorstore Scenario.
Local Open Scope string_scope.
Local Open Scope list_scope.

(** The store of the examples: the defaults, no directory, then one
    ingestion of two entries with the same content. *)
Example after_ingest_state :
  vector_index after_ingest = Some 0
  /\ indexed after_ingest = [aspirin1; aspirin2]
  /\ elements (added_doc_hashes after_ingest)
     = ["90ea1eeaf311dc6d503bf7cb8056f8bb"]
  /\ disk after_ingest = Some [aspirin1; aspirin2]
  /\ use_reranker after_ingest = true
  /\ compression_retriever after_ingest = None.
Proof. vm_compute. repeat split. Qed.

Lemma create_vector_index_stores_every_copy_witness :
  exists st',
    _create_vector_index quiet fresh_store [aspirin1; aspirin2] = Ok st'
    /\ copies "aspirin" (indexed st')
       = copies "aspirin" (indexed fresh_store)
         + copies "aspirin" [aspirin1; aspirin2]
    /\ 2 <= copies "aspirin" [aspirin1; aspirin2]
    /\ _get_document_hash aspirin2 = _get_document_hash aspirin1
    /\ _get_document_hash aspirin1 ∈ added_doc_hashes st'
    /\ _create_vector_index quiet st' [aspirin1; aspirin2] = Ok st'.
Proof.
  apply (create_vector_index_stores_every_copy quiet fresh_store
           [aspirin1; aspirin2] [] [] [] aspirin1 aspirin2).
  - split; intros; reflexivity.
  - reflexivity.
  - reflexivity.
  - reflexivity.
  - reflexivity.
  - apply not_elem_of_empty.
Defined.

(** C2 as stated fails. With one document per batch, the ingestion of two
    entries of the same content hands over the batches [[aspirin1]] and
    [[aspirin2]]; the first makes the index, the FAISS call of the second
    raises, it returns 0, and the fingerprint of its document is in the
    set all the same: the first batch put it there. *)
Lemma add_batch_failure_keeps_known_fingerprint :
  let st0 := store 1 false in
  let st1 := fst (_add_batch_and_persist append_down st0 [aspirin1]) in
  _create_batches st0 (new_documents st0 [aspirin1; aspirin2])
  = Ok [[aspirin1]; [aspirin2]]
  /\ mutate_index append_down st1 [aspirin2] = Raise "embedding failed"
  /\ _add_batch_and_persist append_down st1 [aspirin2] = (st1, 0%Z)
  /\ _get_document_hash aspirin2
     ∈ added_doc_hashes (fst (_add_batch_and_persist append_down st1 [aspirin2])).
Proof.
  intros st0 st1.
  split; [vm_compute; reflexivity|].
  split; [vm_compute; reflexivity|].
  split; [vm_compute; reflexivity|].
  apply elem_of_elements. vm_compute. left.
Qed.

Lemma add_batch_failure_leaves_no_trace_witness :
  _add_batch_and_persist embedding_down after_ingest [ibuprofen]
  = (after_ingest, 0%Z)
  /\ length (indexed (fst (_add_batch_and_persist embedding_down after_ingest
                             [ibuprofen]))) = 2
  /\ _get_document_hash ibuprofen
     ∉ added_doc_hashes (fst (_add_batch_and_persist embedding_down after_ingest
                                [ibuprofen])).
Proof.
  destruct (add_batch_failure_leaves_no_trace embedding_down after_ingest
              [ibuprofen] "embedding failed"
              ltac:(discriminate) ltac:(vm_compute; reflexivity))
    as (Hzero & Hsame & _ & Hlen & Hiff).
  split; [|split].
  - rewrite (surjective_pairing (_add_batch_and_persist _ _ _)).
    rewrite Hzero, Hsame. reflexivity.
  - rewrite Hlen. vm_compute. reflexivity.
  - intros Hin. destruct (Hiff ibuprofen (or_introl eq_refl)) as [Hbefore _].
    assert (Hno : bool_decide (_get_document_hash ibuprofen
                               ∈ added_doc_hashes after_ingest) = false)
      by (vm_compute; reflexivity).
    exact (bool_decide_eq_false_1 _ Hno (Hbefore Hin)).
Defined.

Lemma similarity_search_without_retriever_witness :
  similarity_search quiet after_ingest "aspirin" 4 = (after_ingest, [])
  /\ asimilarity_search quiet (indexed after_ingest) "aspirin" 4
     = Ok [aspirin1; aspirin2].
Proof.
  split.
  - apply (similarity_search_without_retriever quiet after_ingest "aspirin" 4 0);
      vm_compute; reflexivity.
  - vm_compute. reflexivity.
Defined.

(** C9 as stated fails. When the removal raises, the directory is still
    there after [delete_index]; and when there is no directory, the
    index in memory outlives [delete_index] and still answers. *)
Lemma delete_index_leaves_state :
  disk (delete_index read_only_disk after_ingest) = Some [aspirin1; aspirin2]
  /\ (disk unsaved_store = None
      /\ vector_index (delete_index quiet unsaved_store) = Some 0
      /\ added_doc_hashes (delete_index quiet unsaved_store) <> ∅
      /\ snd (similarity_search quiet (delete_index quiet unsaved_store)
                                "aspirin" 4) = [aspirin1]).
Proof.
  split; [vm_compute; reflexivity|].
  split; [vm_compute; reflexivity|].
  split; [vm_compute; reflexivity|].
  split; [|vm_compute; reflexivity].
  intros H.
  assert (E : elements (added_doc_hashes (delete_index quiet unsaved_store))
              = elements (∅ : gset string)) by (rewrite H; reflexivity).
  vm_compute in E. discriminate E.
Qed.

Lemma delete_index_resets_witness :
  vector_index (delete_index read_only_disk after_ingest) = None
  /\ added_doc_hashes (delete_index read_only_disk after_ingest) = ∅
  /\ snd (similarity_search read_only_disk
            (delete_index read_only_disk after_ingest) "aspirin" 4) = []
  /\ disk (delete_index quiet after_ingest) = None.
Proof.
  assert (Hdisk : disk after_ingest <> None) by (vm_compute; discriminate).
  destruct (delete_index_resets read_only_disk after_ingest Hdisk)
    as (H1 & H2 & H3 & _).
  destruct (delete_index_resets quiet after_ingest Hdisk) as (_ & _ & _ & H4).
  split; [exact H1|]. split; [exact H2|]. split; [apply H3|].
  apply H4. reflexivity.
Defined.

Lemma batch_query_one_result_per_query_witness :
  snd (batch_query quiet fresh_store ["aspirin"; "ibuprofen"; "warfarin"] 4)
  = [[]; []; []]
  /\ snd (batch_query quiet unsaved_store ["aspirin"; "ibuprofen"] 4)
     = [[aspirin1]; [aspirin1]].
Proof.
  split.
  - destruct (batch_query_one_result_per_query quiet fresh_store
                ["aspirin"; "ibuprofen"; "warfarin"] 4) as (_ & _ & Hnone).
    apply Hnone. reflexivity.
  - destruct (batch_query_one_result_per_query quiet unsaved_store
                ["aspirin"; "ibuprofen"] 4) as (_ & Hmap & _).
    rewrite Hmap. vm_compute. reflexivity.
Defined.

End Examples.

(** * Further properties of the vector store *)

Section Corpus.
Import Py Vectorstore.
Local Open Scope string_scope.
Local Open Scope list_scope.

Variable env : Env.

(** ** Validity of documents *)

Lemma valid_all_space (doc : Document) :
  valid doc = negb (all_space (page_content doc)).
Proof.
  unfold valid. rewrite strip_truthy.
  destruct (page_content doc); reflexivity.
Qed.

Lemma filter_filter_same {A} (P : A -> bool) (l : list A) :
  List.filter P (List.filter P l) = List.filter P l.
Proof.
  induction l as [|x l IH]; [reflexivity|]. simpl.
  destruct (P x) eqn:E; [|exact IH]. simpl. rewrite E, IH. reflexivity.
Qed.

Lemma filter_sublist {A} (P : A -> bool) (l : list A) :
  List.filter P l `sublist_of` l.
Proof.
  induction l as [|x l IH]; simpl; [constructor|].
  destruct (P x); [apply sublist_skip | apply sublist_cons]; exact IH.
Qed.

(** X1. [_filter_valid_docs] keeps, in their order, exactly the documents
    whose content has a character that is not a space; filtering what it
    returned changes nothing. *)
Theorem filter_valid_docs_keeps (documents : list Document) :
  (forall doc, In doc (_filter_valid_docs documents)
               <-> In doc documents /\ all_space (page_content doc) = false)
  /\ _filter_valid_docs documents `sublist_of` documents
  /\ _filter_valid_docs (_filter_valid_docs documents)
     = _filter_valid_docs documents.
Proof.
  split; [|split].
  - intros doc. rewrite filter_valid_docs_In, valid_all_space, negb_true_iff.
    reflexivity.
  - apply filter_sublist.
  - apply filter_filter_same.
Qed.

(** ** Batches *)

Lemma ceil_div_bound (len size : Z) (j : nat) :
  (0 < size)%Z -> (0 <= len)%Z ->
  j < Z.to_nat ((len + size - 1) / size) ->
  (Z.of_nat j * size < len)%Z.
Proof.
  intros Hs Hl Hj.
  pose proof (Z.mul_div_le (len + size - 1) size Hs) as Hq.
  assert (Z.of_nat j + 1 <= (len + size - 1) / size)%Z by lia.
  nia.
Qed.

Lemma create_batches_sizes (st : VectorStore) (documents : list Document)
    (batches : list (list Document)) :
  (0 < batch_size st)%Z ->
  _create_batches st documents = Ok batches ->
  Forall (fun batch => 1 <= length batch
                       /\ (Z.of_nat (length batch) <= batch_size st)%Z)
         batches.
Proof.
  intros Hbs E. unfold _create_batches, range0 in E.
  destruct (Z.eqb_spec (batch_size st) 0) as [Hz|Hz]; [lia|].
  destruct (Z.ltb_spec 0 (batch_size st)); [|lia].
  cbn [bind] in E. injection E as <-.
  apply List.Forall_forall. intros batch Hin.
  apply in_map_iff in Hin as (i & <- & Hin).
  apply in_map_iff in Hin as (j & <- & Hin).
  apply in_seq in Hin as [_ Hj]. simpl in Hj.
  pose proof (ceil_div_bound (Z.of_nat (length documents)) (batch_size st) j
                Hbs ltac:(lia) Hj) as Hlt.
  unfold slice. rewrite length_firstn, length_skipn.
  set (p := (Z.of_nat j * batch_size st)%Z) in *.
  assert (0 <= p)%Z by (unfold p; nia).
  lia.
Qed.

(** X2. With a positive [batch_size], [_create_batches] cuts the documents
    into consecutive batches: put end to end they are the documents, none
    is empty and none holds more than [batch_size] documents. *)
Theorem create_batches_partition (st : VectorStore) (documents : list Document) :
  (0 < batch_size st)%Z ->
  exists batches,
    _create_batches st documents = Ok batches
    /\ concat batches = documents
    /\ Forall (fun batch => 1 <= length batch
                            /\ (Z.of_nat (length batch) <= batch_size st)%Z)
              batches.
Proof.
  intros Hbs.
  destruct (create_batches_concat st documents Hbs) as (batches & E & Hc).
  exists batches. split; [exact E|]. split; [exact Hc|].
  apply (create_batches_sizes st documents batches Hbs E).
Qed.

(** X3. [_create_vector_index] with documents to add and a [batch_size]
    that is not positive: with 0 it raises (the batch count of the log
    line divides by it) before anything is added; with a negative one it
    returns with no batch made, and the store is as before: the documents
    are dropped without a word. *)
Theorem create_vector_index_bad_batch_size (st : VectorStore)
    (documents : list Document) :
  new_documents st documents <> [] ->
  (batch_size st = 0%Z ->
   exists e, _create_vector_index env st documents = Raise e)
  /\ ((batch_size st < 0)%Z ->
      _create_vector_index env st documents = Ok st).
Proof.
  intros Hnew. rewrite create_vector_index_new_documents.
  destruct (new_documents st documents) as [|d news]; [congruence|].
  split; intros Hbs.
  - unfold floor_div. rewrite Hbs. eexists. reflexivity.
  - unfold floor_div, _create_batches, range0.
    destruct (Z.eqb_spec (batch_size st) 0); [lia|].
    destruct (Z.ltb_spec 0 (batch_size st)); [lia|]. reflexivity.
Qed.

(** X4. [_create_vector_index] is a no-op, whatever the environment and
    the [batch_size], when every valid document of the list has its
    fingerprint in the set already; an empty list and a list of blank
    documents are such lists. *)
Theorem create_vector_index_nothing_new (st : VectorStore)
    (documents : list Document) :
  (forall doc, In doc documents -> valid doc = true ->
               _get_document_hash doc ∈ added_doc_hashes st) ->
  _create_vector_index env st documents = Ok st.
Proof.
  intros Hknown. rewrite create_vector_index_new_documents.
  replace (new_documents st documents) with (@nil Document); [reflexivity|].
  symmetry. apply filter_none. intros doc Hin.
  apply filter_valid_docs_In in Hin as [Hin Hv].
  unfold _is_new_document. apply andb_false_iff. right.
  apply bool_decide_eq_false. intros Hnot. apply Hnot, Hknown; assumption.
Qed.

(** ** One batch *)

Lemma mutate_index_ok (st st1 : VectorStore) (batch : list Document) :
  mutate_index env st batch = Ok st1 ->
  indexed st1 = indexed st ++ batch
  /\ added_doc_hashes st1 = added_doc_hashes st
  /\ disk st1 = disk st
  /\ is_Some (vector_index st1).
Proof.
  unfold mutate_index. destruct (vector_index st) as [a|] eqn:E.
  - destruct (add_documents_exn env (deref st a) batch); [intros [=]|].
    intros H. injection H as <-. unfold indexed, deref. simpl.
    rewrite E, lookup_insert_eq. eauto.
  - destruct (from_documents_exn env batch); [intros [=]|].
    intros H. injection H as <-. unfold indexed, deref. simpl.
    rewrite E, lookup_insert_eq. eauto.
Qed.

(** A batch is taken whole or not at all. *)
Lemma add_batch_cases (st : VectorStore) (batch : list Document) :
  _add_batch_and_persist env st batch = (st, 0%Z)
  \/ (batch <> []
      /\ snd (_add_batch_and_persist env st batch) = Z.of_nat (length batch)
      /\ indexed (fst (_add_batch_and_persist env st batch)) = indexed st ++ batch
      /\ added_doc_hashes (fst (_add_batch_and_persist env st batch))
         = added_doc_hashes st ∪ hashes_of batch).
Proof.
  unfold _add_batch_and_persist. destruct batch as [|d batch]; [left; reflexivity|].
  destruct (mutate_index env st (d :: batch)) as [st1|e] eqn:E;
    [right | left; reflexivity].
  destruct (mutate_index_ok _ _ _ E) as (Hi & Hh & _ & _).
  cbn [bind try_except fst snd].
  rewrite indexed_update_doc_hashes, indexed_save_local_index, update_doc_hashes_set.
  destruct (save_local_index_fields env st1) as (_ & _ & Hs).
  rewrite Hs, Hi, Hh. repeat split. discriminate.
Qed.

Lemma gather_batches_kept (batches : list (list Document)) (st : VectorStore) :
  exists kept,
    kept `sublist_of` batches
    /\ indexed (gather_batches env st batches) = indexed st ++ concat kept
    /\ added_doc_hashes (gather_batches env st batches)
       = added_doc_hashes st ∪ hashes_of (concat kept).
Proof.
  revert st. induction batches as [|b batches IH]; intros st.
  - exists []. simpl. rewrite app_nil_r. unfold hashes_of. simpl.
    rewrite (right_id_L ∅ (∪)). repeat split. constructor.
  - unfold gather_batches in *. simpl.
    destruct (IH (fst (_add_batch_and_persist env st b))) as (kept & Hs & Hi & Hh).
    destruct (add_batch_cases st b) as [E|(_ & _ & Hi1 & Hh1)].
    + rewrite E in *. simpl in *. exists kept.
      split; [apply sublist_cons, Hs | split; assumption].
    + exists (b :: kept). split; [apply sublist_skip, Hs|].
      rewrite Hi, Hh, Hi1, Hh1. simpl. split.
      * rewrite app_assoc. reflexivity.
      * unfold hashes_of. rewrite map_app, list_to_set_app_L, (assoc_L (∪)).
        reflexivity.
Qed.

Lemma concat_sublist {A} (kept batches : list (list A)) :
  kept `sublist_of` batches -> concat kept `sublist_of` concat batches.
Proof.
  induction 1 as [|x l1 l2 _ IH|x l1 l2 _ IH]; simpl.
  - constructor.
  - apply sublist_app; [reflexivity | exact IH].
  - apply sublist_inserts_l, IH.
Qed.

(** What an ingestion that returned has done. *)
Lemma create_vector_index_added (st st' : VectorStore) (documents : list Document) :
  _create_vector_index env st documents = Ok st' ->
  exists added,
    added `sublist_of` new_documents st documents
    /\ indexed st' = indexed st ++ added
    /\ added_doc_hashes st' = added_doc_hashes st ∪ hashes_of added.
Proof.
  rewrite create_vector_index_new_documents.
  assert (Hnone : forall s : VectorStore,
             indexed s = indexed s ++ []
             /\ added_doc_hashes s = added_doc_hashes s ∪ hashes_of []).
  { intros s. rewrite app_nil_r. unfold hashes_of. simpl.
    rewrite (right_id_L ∅ (∪)). split; reflexivity. }
  destruct (new_documents st documents) as [|d news] eqn:En.
  - intros H. injection H as <-. exists []. split; [constructor | apply Hnone].
  - unfold floor_div. destruct (Z.eqb_spec (batch_size st) 0) as [Hz|Hz];
      [intros [=]|]. cbn [bind].
    destruct (Z.ltb_spec 0 (batch_size st)) as [Hpos|Hneg].
    + destruct (create_batches_concat st (d :: news) Hpos) as (batches & Eb & Hc).
      rewrite Eb. cbn [bind]. intros H. injection H as <-.
      destruct (gather_batches_kept batches st) as (kept & Hs & Hi & Hh).
      exists (concat kept). rewrite <- Hc.
      split; [apply concat_sublist, Hs | split; assumption].
    + unfold _create_batches, range0.
      destruct (Z.eqb_spec (batch_size st) 0); [lia|].
      destruct (Z.ltb_spec 0 (batch_size st)); [lia|].
      cbn [bind map]. intros Hok. injection Hok as <-.
      exists []. split; [apply sublist_nil_l | apply Hnone].
Qed.

(** ** The batches FAISS takes *)

Lemma index_of_indexed (st : VectorStore) :
  indexed st = default [] (index_of st).
Proof. unfold indexed, index_of. destruct (vector_index st); reflexivity. Qed.

Lemma index_of_update_doc_hashes (batch : list Document) (st : VectorStore) :
  index_of (_update_doc_hashes st batch) = index_of st.
Proof.
  destruct (update_doc_hashes_fields batch st) as (H1 & H2 & _).
  unfold index_of, deref. rewrite H1, H2. reflexivity.
Qed.

Lemma index_of_save_local_index (st : VectorStore) :
  index_of (_save_local_index env st) = index_of st.
Proof.
  destruct (save_local_index_fields env st) as (H1 & H2 & _).
  unfold index_of, deref. rewrite H1, H2. reflexivity.
Qed.

(** The FAISS call of a batch returns exactly when FAISS does not raise
    for the batch and the index as it is. *)
Lemma mutate_index_faiss (st : VectorStore) (batch : list Document) :
  match faiss_exn env (index_of st) batch with
  | None =>
      exists st1,
        mutate_index env st batch = Ok st1
        /\ index_of st1 = Some (indexed st ++ batch)
        /\ added_doc_hashes st1 = added_doc_hashes st
  | Some e => mutate_index env st batch = Raise e
  end.
Proof.
  unfold mutate_index, faiss_exn, index_of, indexed.
  destruct (vector_index st) as [a|] eqn:E; simpl.
  - destruct (add_documents_exn env (deref st a) batch); [reflexivity|].
    eexists. split; [reflexivity|]. simpl. rewrite E. simpl. unfold deref. simpl.
    rewrite lookup_insert_eq. split; reflexivity.
  - destruct (from_documents_exn env batch); [reflexivity|].
    eexists. split; [reflexivity|]. simpl. unfold deref. simpl.
    rewrite lookup_insert_eq. split; reflexivity.
Qed.

Lemma add_batch_faiss (st : VectorStore) (d : Document) (batch : list Document) :
  match faiss_exn env (index_of st) (d :: batch) with
  | None =>
      index_of (fst (_add_batch_and_persist env st (d :: batch)))
      = Some (indexed st ++ d :: batch)
      /\ added_doc_hashes (fst (_add_batch_and_persist env st (d :: batch)))
         = added_doc_hashes st ∪ hashes_of (d :: batch)
  | Some _ => fst (_add_batch_and_persist env st (d :: batch)) = st
  end.
Proof.
  pose proof (mutate_index_faiss st (d :: batch)) as H.
  unfold _add_batch_and_persist.
  destruct (faiss_exn env (index_of st) (d :: batch)).
  - rewrite H. reflexivity.
  - destruct H as (st1 & E & Hi & Hh). rewrite E. cbn [bind try_except fst].
    rewrite index_of_update_doc_hashes, index_of_save_local_index,
      update_doc_hashes_set.
    destruct (save_local_index_fields env st1) as (_ & _ & Hs).
    rewrite Hs, Hi, Hh. split; reflexivity.
Qed.

Lemma accepted_cons (index : option FAISS) (d : Document)
    (batch : list Document) (rest : list (list Document)) :
  accepted env index ((d :: batch) :: rest)
  = match faiss_exn env index (d :: batch) with
    | None => (d :: batch)
              :: accepted env (Some (default [] index ++ d :: batch)) rest
    | Some _ => accepted env index rest
    end.
Proof. reflexivity. Qed.

Lemma accepted_sublist (batches : list (list Document)) (index : option FAISS) :
  accepted env index batches `sublist_of` batches.
Proof.
  revert index. induction batches as [|b batches IH]; intros index; [constructor|].
  destruct b as [|d b]; [apply sublist_cons, IH|].
  rewrite accepted_cons. destruct (faiss_exn env index (d :: b)).
  - apply sublist_cons, IH.
  - apply sublist_skip, IH.
Qed.

(** A run of batches adds the batches FAISS takes, and no other. *)
Lemma gather_batches_accepted (batches : list (list Document)) (st : VectorStore) :
  indexed (gather_batches env st batches)
  = indexed st ++ concat (accepted env (index_of st) batches)
  /\ added_doc_hashes (gather_batches env st batches)
     = added_doc_hashes st
       ∪ hashes_of (concat (accepted env (index_of st) batches)).
Proof.
  revert st. induction batches as [|b batches IH]; intros st.
  - simpl. rewrite app_nil_r. unfold hashes_of. simpl.
    rewrite (right_id_L ∅ (∪)). split; reflexivity.
  - destruct b as [|d b].
    + exact (IH st).
    + change (gather_batches env st ((d :: b) :: batches))
        with (gather_batches env
                (fst (_add_batch_and_persist env st (d :: b))) batches).
      rewrite accepted_cons.
      pose proof (add_batch_faiss st d b) as H.
      destruct (faiss_exn env (index_of st) (d :: b)).
      * rewrite H. exact (IH st).
      * destruct H as [Hi Hh].
        destruct (IH (fst (_add_batch_and_persist env st (d :: b)))) as [IHi IHh].
        rewrite IHi, IHh, Hh, Hi, !index_of_indexed, Hi. cbn [concat default].
        rewrite <- index_of_indexed. unfold id. split.
        -- rewrite <- app_assoc. reflexivity.
        -- unfold hashes_of. rewrite map_app, list_to_set_app_L, (assoc_L (∪)).
           reflexivity.
Qed.

(** X5. Whatever FAISS and the disk do, an ingestion that returns without
    anything to add leaves the store as it was, and one with documents to
    add has added to the index exactly the batches whose FAISS call
    returned ([accepted]: each batch put to FAISS with the index the
    earlier batches left), each whole and in order, and nothing of the
    batches whose call raised; the fingerprint set has gained the
    fingerprints of the documents added and no other. A batch that fails
    costs the other batches nothing. *)
Theorem create_vector_index_batches_all_or_nothing (st st' : VectorStore)
    (documents : list Document) :
  _create_vector_index env st documents = Ok st' ->
  (new_documents st documents = [] -> st' = st)
  /\ (new_documents st documents <> [] ->
      exists batches,
        _create_batches st (new_documents st documents) = Ok batches
        /\ accepted env (index_of st) batches `sublist_of` batches
        /\ indexed st'
           = indexed st ++ concat (accepted env (index_of st) batches)
        /\ added_doc_hashes st'
           = added_doc_hashes st
             ∪ hashes_of (concat (accepted env (index_of st) batches))).
Proof.
  intros E. rewrite create_vector_index_new_documents in E.
  destruct (new_documents st documents) as [|d news] eqn:En.
  - injection E as <-. split; [reflexivity | congruence].
  - split; [discriminate|]. intros _.
    unfold floor_div in E.
    destruct (Z.eqb_spec (batch_size st) 0) as [Hz|Hz]; [discriminate E|].
    cbn [bind] in E.
    destruct (_create_batches st (d :: news)) as [batches|e] eqn:Eb;
      [|discriminate E].
    cbn [bind] in E. injection E as <-.
    exists batches. split; [reflexivity|].
    split; [apply accepted_sublist | apply gather_batches_accepted].
Qed.

End Corpus.

Section Corpus_invariant.
Import Py Vectorstore.
Local Open Scope string_scope.
Local Open Scope list_scope.

Lemma hashes_of_app (l1 l2 : list Document) :
  hashes_of (l1 ++ l2) = hashes_of l1 ∪ hashes_of l2.
Proof. unfold hashes_of. rewrite map_app. apply list_to_set_app_L. Qed.

Lemma same_corpus_indexed (st st' : VectorStore) :
  same_corpus st st' -> indexed st' = indexed st.
Proof.
  intros (H1 & H2 & _). unfold indexed, deref. rewrite H1, H2. reflexivity.
Qed.

Lemma same_corpus_refl (st : VectorStore) : same_corpus st st.
Proof. repeat split. Qed.

Lemma same_corpus_trans (st1 st2 st3 : VectorStore) :
  same_corpus st1 st2 -> same_corpus st2 st3 -> same_corpus st1 st3.
Proof.
  intros (A1 & A2 & A3 & A4) (B1 & B2 & B3 & B4).
  repeat split; congruence.
Qed.

Lemma setup_reranker_corpus (env : Env) (st : VectorStore) :
  same_corpus st (_setup_reranker env st).
Proof.
  unfold _setup_reranker.
  destruct (use_reranker st); [|apply same_corpus_refl].
  destruct (vector_index st) eqn:E; [|apply same_corpus_refl].
  destruct (cross_encoder_exn env); [repeat split; simpl; auto|].
  destruct (reranker_top_n st); repeat split; simpl; auto.
Qed.

Lemma searched_corpus (k : Z) (st : VectorStore) : same_corpus st (searched k st).
Proof.
  unfold searched.
  destruct (vector_index st) eqn:E; [|apply same_corpus_refl].
  destruct (use_reranker st); [|apply same_corpus_refl].
  destruct (compression_retriever st); [|apply same_corpus_refl].
  repeat split; simpl; auto.
Qed.

Lemma reranked_search_corpus (env : Env) (st : VectorStore) (query : string) (k : Z) :
  same_corpus st (fst (perform_reranked_search env st query k)).
Proof.
  unfold perform_reranked_search.
  destruct (use_reranker st); [|apply same_corpus_refl].
  destruct (compression_retriever st); [|apply same_corpus_refl].
  repeat split.
Qed.

Lemma gather_searches_corpus (env : Env) (queries : list string) (st : VectorStore)
    (k : Z) :
  same_corpus st (fst (gather_searches env st queries k)).
Proof.
  revert st. induction queries as [|q queries IH]; intros st;
    [apply same_corpus_refl|].
  simpl.
  pose proof (similarity_search_state env st q k) as Hs.
  destruct (similarity_search env st q k) as [s1 r1]. simpl in Hs. subst s1.
  specialize (IH (searched k st)).
  destruct (gather_searches env (searched k st) queries k) as [s2 rs].
  simpl in *. exact (same_corpus_trans _ _ _ (searched_corpus k st) IH).
Qed.

Lemma new_hashes (env : Env) (size : Z) (rerank : bool) (n : option Z)
    (on_disk : option FAISS) :
  added_doc_hashes (new env size rerank n on_disk)
  = hashes_of (indexed (new env size rerank n on_disk)).
Proof.
  unfold new.
  rewrite (same_corpus_indexed _ _ (setup_reranker_corpus env _)).
  destruct (setup_reranker_corpus env
              (_load_local_index env
                 {| batch_size := size; use_reranker := rerank;
                    reranker_top_n := n; vector_index := None;
                    added_doc_hashes := ∅; compression_retriever := None;
                    heap := ∅; disk := on_disk |})) as (_ & _ & -> & _).
  unfold _load_local_index. simpl.
  destruct on_disk as [saved|]; [|reflexivity].
  destruct (load_local_exn env saved); [reflexivity|].
  unfold alloc. simpl.
  rewrite (same_corpus_indexed _ _ (setup_reranker_corpus env _)).
  destruct (setup_reranker_corpus env
              (_reconstruct_hashes
                 (set_vector_index (Some (fresh (dom (∅ : gmap addr FAISS))))
                    (set_heap (<[fresh (dom (∅ : gmap addr FAISS)) := saved]> ∅)
                       {| batch_size := size; use_reranker := rerank;
                          reranker_top_n := n; vector_index := None;
                          added_doc_hashes := ∅; compression_retriever := None;
                          heap := ∅; disk := Some saved |}))))
    as (_ & _ & -> & _).
  unfold _reconstruct_hashes.
  rewrite update_doc_hashes_set, indexed_update_doc_hashes. simpl.
  rewrite (left_id_L ∅ (∪)). reflexivity.
Qed.

(** In a store a program can get to, the fingerprint set is the set of
    the fingerprints of the indexed documents. *)
Lemma reachable_hashes (st : VectorStore) :
  reachable st -> added_doc_hashes st = hashes_of (indexed st).
Proof.
  induction 1 as [env size rerank n on_disk
                 |env st documents st' _ IH E
                 |env st batch _ IH
                 |env st _ IH
                 |env st query k _ IH
                 |env st query k _ IH
                 |env st queries k _ IH].
  - apply new_hashes.
  - destruct (create_vector_index_added env st st' documents E)
      as (added & _ & Hi & Hh).
    rewrite Hh, Hi, hashes_of_app, IH. reflexivity.
  - destruct (add_batch_cases env st batch) as [E|(_ & _ & Hi & Hh)].
    + rewrite E. exact IH.
    + rewrite Hh, Hi, hashes_of_app, IH. reflexivity.
  - unfold delete_index. destruct (disk st); [reflexivity | exact IH].
  - rewrite similarity_search_state.
    destruct (searched_corpus k st) as (H1 & H2 & H3 & _).
    rewrite H3, (same_corpus_indexed _ _ (searched_corpus k st)). exact IH.
  - pose proof (reranked_search_corpus env st query k) as Hc.
    destruct Hc as (H1 & H2 & H3 & H4).
    rewrite H3, (same_corpus_indexed st _ (conj H1 (conj H2 (conj H3 H4)))).
    exact IH.
  - unfold batch_query. destruct (vector_index st); [|exact IH].
    pose proof (gather_searches_corpus env queries st k) as Hc.
    destruct Hc as (H1 & H2 & H3 & H4).
    rewrite H3, (same_corpus_indexed st _ (conj H1 (conj H2 (conj H3 H4)))).
    exact IH.
Qed.

Lemma copies_none (content : string) (docs : list Document) :
  (forall doc, In doc docs -> page_content doc <> content) ->
  copies content docs = 0.
Proof.
  unfold copies. intros H. rewrite filter_none; [reflexivity|].
  intros doc Hin. apply String.eqb_neq, H, Hin.
Qed.

(** X6. In every store a program can get to (made by the constructor,
    then driven through ingestion, deletion and searches, whatever the
    environment does), the fingerprint set is exactly the set of the
    fingerprints of the indexed documents. So an indexed document is never
    taken for new, and a document taken for new has no copy of its content
    in the index. *)
Theorem reachable_fingerprints_match_index (st : VectorStore) :
  reachable st ->
  added_doc_hashes st = hashes_of (indexed st)
  /\ (forall doc, In doc (indexed st) -> _is_new_document st doc = false)
  /\ (forall doc, _is_new_document st doc = true ->
                  copies (page_content doc) (indexed st) = 0).
Proof.
  intros Hr. pose proof (reachable_hashes st Hr) as Hh.
  split; [exact Hh|]. split.
  - intros doc Hin. unfold _is_new_document. apply andb_false_iff. right.
    apply bool_decide_eq_false. intros Hnot. apply Hnot. rewrite Hh.
    apply elem_of_hashes_of, Hin.
  - intros doc Hnew. unfold _is_new_document in Hnew.
    apply andb_true_iff in Hnew as [_ Hnew]. apply bool_decide_eq_true in Hnew.
    apply copies_none. intros d Hin Hc. apply Hnew. rewrite Hh.
    rewrite <- (get_document_hash_content d doc Hc).
    apply elem_of_hashes_of, Hin.
Qed.

End Corpus_invariant.

Section Persistence.
Import Py Vectorstore.
Local Open Scope string_scope.
Local Open Scope list_scope.

Lemma update_doc_hashes_disk (batch : list Document) (st : VectorStore) :
  disk (_update_doc_hashes st batch) = disk st.
Proof. destruct (update_doc_hashes_fields batch st) as (_ & _ & H & _). exact H. Qed.

(** What [_save_local_index] leaves in the directory. *)
Lemma save_local_index_disk (env : Env) (st : VectorStore) :
  is_Some (vector_index st) ->
  disk (_save_local_index env st)
  = match save_local_exn env (indexed st) with
    | None => Some (indexed st)
    | Some _ => disk st
    end.
Proof.
  intros [a Ha]. unfold _save_local_index, indexed. rewrite Ha.
  destruct (save_local_exn env (deref st a)); reflexivity.
Qed.

(** X7. When the FAISS call of a non-empty batch returns,
    [_add_batch_and_persist] returns the number of documents of the batch,
    with the batch in the index and its fingerprints in the set, whether or
    not the save that follows raises; the directory then holds the whole
    index if the save returned, and what it held before if it raised. *)
Theorem add_batch_survives_save_failure (env : Env) (st st1 : VectorStore)
    (batch : list Document) :
  batch <> [] ->
  mutate_index env st batch = Ok st1 ->
  let st' := fst (_add_batch_and_persist env st batch) in
  snd (_add_batch_and_persist env st batch) = Z.of_nat (length batch)
  /\ indexed st' = indexed st ++ batch
  /\ added_doc_hashes st' = added_doc_hashes st ∪ hashes_of batch
  /\ disk st' = match save_local_exn env (indexed st ++ batch) with
                | None => Some (indexed st ++ batch)
                | Some _ => disk st
                end.
Proof.
  intros Hne E st'. unfold st', _add_batch_and_persist.
  destruct batch as [|d batch]; [congruence|].
  rewrite E. cbn [bind try_except fst snd].
  destruct (mutate_index_ok env _ _ _ E) as (Hi & Hh & Hd & Hv).
  rewrite indexed_update_doc_hashes, indexed_save_local_index,
    update_doc_hashes_set, update_doc_hashes_disk,
    (save_local_index_disk env st1 Hv).
  destruct (save_local_index_fields env st1) as (_ & _ & Hs).
  rewrite Hs, Hi, Hh, Hd. repeat split.
Qed.

Lemma add_batch_synced (env : Env) (st : VectorStore) (batch : list Document) :
  library_works env -> batch <> [] ->
  disk (fst (_add_batch_and_persist env st batch))
  = Some (indexed (fst (_add_batch_and_persist env st batch))).
Proof.
  intros [Hw Hsave] Hne.
  destruct (mutate_index_success env st batch Hw) as (st1 & E & _).
  unfold _add_batch_and_persist. destruct batch as [|d batch]; [congruence|].
  rewrite E. cbn [bind try_except fst].
  destruct (mutate_index_ok env _ _ _ E) as (_ & _ & _ & Hv).
  rewrite indexed_update_doc_hashes, indexed_save_local_index,
    update_doc_hashes_disk, (save_local_index_disk env st1 Hv), Hsave.
  reflexivity.
Qed.

Lemma gather_batches_synced (env : Env) (batches : list (list Document))
    (st : VectorStore) :
  library_works env ->
  Forall (fun batch => batch <> []) batches ->
  batches <> [] \/ disk st = Some (indexed st) ->
  disk (gather_batches env st batches)
  = Some (indexed (gather_batches env st batches)).
Proof.
  intros Hw Hall. revert st.
  induction Hall as [|b batches Hb _ IH]; intros st Hor.
  - destruct Hor as [Hne|Hs]; [congruence | exact Hs].
  - unfold gather_batches in *. simpl. apply IH. right.
    apply add_batch_synced; assumption.
Qed.

(** After an ingestion that added something, with a library that works,
    the directory holds the whole index. *)
Lemma create_vector_index_synced (env : Env) (st st' : VectorStore)
    (documents : list Document) :
  library_works env -> (0 < batch_size st)%Z ->
  new_documents st documents <> [] ->
  _create_vector_index env st documents = Ok st' ->
  disk st' = Some (indexed st').
Proof.
  intros Hw Hbs Hnew E. rewrite create_vector_index_new_documents in E.
  destruct (new_documents st documents) as [|d news]; [congruence|].
  unfold floor_div in E.
  destruct (Z.eqb_spec (batch_size st) 0) as [Hz|Hz]; [lia|]. cbn [bind] in E.
  destruct (create_batches_concat st (d :: news) Hbs) as (batches & Eb & Hc).
  pose proof (create_batches_sizes st (d :: news) batches Hbs Eb) as Hsizes.
  rewrite Eb in E. cbn [bind] in E. injection E as <-.
  apply gather_batches_synced; [exact Hw | |].
  - eapply Forall_impl; [exact Hsizes|]. intros b [Hlen _] ->. simpl in Hlen. lia.
  - left. intros ->. discriminate Hc.
Qed.

(** X21. With a library that raises nothing and a positive [batch_size],
    [_create_vector_index] returns, and the index has gained the new valid
    documents of the list, all of them and in their order, whatever the
    size of the batches; the set has gained their fingerprints; and if
    there was anything to add, the directory holds the whole index. *)
Theorem create_vector_index_adds_all_new (env : Env) (st : VectorStore)
    (documents : list Document) :
  library_works env ->
  (0 < batch_size st)%Z ->
  exists st',
    _create_vector_index env st documents = Ok st'
    /\ indexed st' = indexed st ++ new_documents st documents
    /\ added_doc_hashes st'
       = added_doc_hashes st ∪ hashes_of (new_documents st documents)
    /\ (new_documents st documents <> [] -> disk st' = Some (indexed st')).
Proof.
  intros Hw Hbs.
  destruct (create_vector_index_success env st documents (proj1 Hw) Hbs)
    as (st' & E & Hi & Hh).
  exists st'. split; [exact E|]. split; [exact Hi|]. split; [exact Hh|].
  intros Hnew. exact (create_vector_index_synced env st st' documents Hw Hbs Hnew E).
Qed.

(** ** Construction over a directory *)

Lemma update_doc_hashes_top_n (batch : list Document) (st : VectorStore) :
  reranker_top_n (_update_doc_hashes st batch) = reranker_top_n st.
Proof.
  revert st. induction batch as [|d batch IH]; intros st; [reflexivity|].
  unfold _update_doc_hashes in *. simpl. rewrite IH. reflexivity.
Qed.

Lemma setup_reranker_result (env : Env) (st : VectorStore) (a : addr) :
  vector_index st = Some a ->
  reranker_top_n (_setup_reranker env st) = reranker_top_n st
  /\ batch_size (_setup_reranker env st) = batch_size st
  /\ match use_reranker st, cross_encoder_exn env, reranker_top_n st with
     | true, None, Some _ =>
         use_reranker (_setup_reranker env st) = true
         /\ compression_retriever (_setup_reranker env st)
            = Some {| top_n := reranker_top_n st; base_retriever := a |}
     | _, _, _ =>
         use_reranker (_setup_reranker env st) = false
         /\ compression_retriever (_setup_reranker env st)
            = compression_retriever st
     end.
Proof.
  intros Ha. unfold _setup_reranker. rewrite Ha.
  destruct (use_reranker st) eqn:Eu; [|rewrite Eu; auto].
  destruct (cross_encoder_exn env); [simpl; auto|].
  destruct (reranker_top_n st) eqn:En; simpl; rewrite ?En; auto.
Qed.

Lemma new_loaded (env : Env) (size : Z) (rerank : bool) (n : option Z)
    (saved : FAISS) :
  load_local_exn env saved = None ->
  exists a,
    let st := new env size rerank n (Some saved) in
    vector_index st = Some a
    /\ heap st !! a = Some saved
    /\ disk st = Some saved
    /\ batch_size st = size
    /\ match rerank, cross_encoder_exn env, n with
       | true, None, Some _ =>
           use_reranker st = true
           /\ compression_retriever st
              = Some {| top_n := n; base_retriever := a |}
       | _, _, _ => use_reranker st = false /\ compression_retriever st = None
       end.
Proof.
  intros Hload. exists (fresh (dom (∅ : gmap addr FAISS))).
  unfold new, _load_local_index. simpl. rewrite Hload. unfold alloc. simpl.
  unfold _reconstruct_hashes.
  match goal with
  | |- context [_update_doc_hashes ?s ?l] => set (st1 := _update_doc_hashes s l);
      destruct (update_doc_hashes_fields l s) as (H1 & H2 & H3 & H4 & H5 & H6);
      pose proof (update_doc_hashes_top_n l s) as H7
  end.
  fold st1 in H1, H2, H3, H4, H5, H6, H7. simpl in H1, H2, H3, H4, H5, H6, H7.
  destruct (setup_reranker_corpus env st1) as (C1 & C2 & _ & C4).
  destruct (setup_reranker_corpus env (_setup_reranker env st1))
    as (D1 & D2 & _ & D4).
  destruct (setup_reranker_result env st1 _ H1) as (R1 & R2 & R3).
  assert (Hv : vector_index (_setup_reranker env st1)
               = Some (fresh (dom (∅ : gmap addr FAISS)))) by congruence.
  destruct (setup_reranker_result env (_setup_reranker env st1) _ Hv)
    as (S1 & S2 & S3).
  cbv zeta.
  split; [congruence|]. split; [rewrite D2, C2, H2; apply lookup_insert_eq|].
  split; [congruence|]. split; [congruence|].
  rewrite H5 in R3. rewrite H6 in R3. rewrite H7 in R3.
  rewrite R1, H7 in S3.
  destruct rerank; [destruct (cross_encoder_exn env); [|destruct n]|];
    destruct R3 as [Ru Rc]; rewrite Ru in S3; destruct S3 as [Su Sc];
    split; congruence.
Qed.

(** Read the object at an address whose content is known. *)
Ltac read_object H :=
  unfold deref; simpl; unfold addr, FAISS in *; rewrite H.

Lemma indexed_lookup (st : VectorStore) (a : addr) (docs : FAISS) :
  vector_index st = Some a -> heap st !! a = Some docs -> indexed st = docs.
Proof.
  intros Ha Hh. unfold indexed. rewrite Ha. read_object Hh. reflexivity.
Qed.

(** X8. Save and reload. After an ingestion that added something to a
    store a program can get to, with a positive [batch_size] and a library
    that raises nothing, a store made over the directory (the load
    returning) has the same indexed documents, in the same order, and the
    same fingerprint set: the set, which is not saved, is rebuilt from
    the documents. *)
Theorem ingest_save_reload (env env' : Env) (st st' : VectorStore)
    (documents : list Document) (size : Z) (rerank : bool) (n : option Z) :
  reachable st ->
  library_works env ->
  (0 < batch_size st)%Z ->
  new_documents st documents <> [] ->
  _create_vector_index env st documents = Ok st' ->
  load_local_exn env' (indexed st') = None ->
  indexed (new env' size rerank n (disk st')) = indexed st'
  /\ added_doc_hashes (new env' size rerank n (disk st')) = added_doc_hashes st'.
Proof.
  intros Hr Hw Hbs Hnew E Hload.
  rewrite (create_vector_index_synced env st st' documents Hw Hbs Hnew E).
  destruct (new_loaded env' size rerank n (indexed st') Hload)
    as (a & Ha & Hh & _).
  assert (Hi : indexed (new env' size rerank n (Some (indexed st'))) = indexed st').
  { apply (indexed_lookup _ a); assumption. }
  split; [exact Hi|].
  rewrite new_hashes, Hi. symmetry. apply reachable_hashes.
  exact (reachable_create_vector_index env st documents st' Hr E).
Qed.

(** X9. Fail-soft reranker. When the index loads and the cross-encoder
    cannot be built, the store made with [use_reranker=True] has reranking
    switched off and no compression retriever, and every search is the
    direct search of the loaded index (empty when that raises). *)
Theorem search_after_reranker_failure (env : Env) (size : Z) (n : option Z)
    (saved : FAISS) (e : string) :
  load_local_exn env saved = None ->
  cross_encoder_exn env = Some e ->
  let st := new env size true n (Some saved) in
  use_reranker st = false
  /\ compression_retriever st = None
  /\ forall query k,
       similarity_search env st query k
       = (st, try_except (asimilarity_search env saved query k) (fun _ => [])).
Proof.
  intros Hload Hx st.
  destruct (new_loaded env size true n saved Hload) as (a & Ha & Hh & _ & _ & Hm).
  rewrite Hx in Hm. destruct Hm as [Hu Hc].
  split; [exact Hu|]. split; [exact Hc|]. intros query k.
  rewrite (similarity_search_direct env st query k a Ha Hu).
  fold st in Hh. read_object Hh. reflexivity.
Qed.

(** X10. When the index loads and the cross-encoder can be built, what the
    store made with [use_reranker=True] does depends on [reranker_top_n].
    With an int, whichever, a search is the answer of the compression
    retriever over the loaded index, asked for [k] documents (empty when
    it raises), and the [top_n] of the compressor is [k] afterwards. With
    [None] the compressor is not built: reranking is switched off, there
    is no compression retriever, and a search is the direct search of the
    loaded index (empty when that raises). *)
Theorem search_after_load_is_reranked (env : Env) (size : Z) (n : option Z)
    (saved : FAISS) (query : string) (k : Z) :
  load_local_exn env saved = None ->
  cross_encoder_exn env = None ->
  let st := new env size true n (Some saved) in
  match n with
  | Some _ =>
      use_reranker st = true
      /\ snd (similarity_search env st query k)
         = try_except (ainvoke env saved (Some k) query) (fun _ => [])
      /\ (top_n <$> compression_retriever (fst (similarity_search env st query k)))
         = Some (Some k)
  | None =>
      use_reranker st = false
      /\ compression_retriever st = None
      /\ similarity_search env st query k
         = (st, try_except (asimilarity_search env saved query k) (fun _ => []))
  end.
Proof.
  intros Hload Hx st.
  destruct (new_loaded env size true n saved Hload) as (a & Ha & Hh & _ & _ & Hm).
  rewrite Hx in Hm. destruct n as [m|]; destruct Hm as [Hu Hc];
    fold st in Ha, Hh, Hu, Hc.
  - split; [exact Hu|].
    unfold similarity_search, perform_reranked_search. rewrite Ha, Hu, Hc.
    read_object Hh. split; reflexivity.
  - split; [exact Hu|]. split; [exact Hc|].
    rewrite (similarity_search_direct env st query k a Ha Hu).
    read_object Hh. reflexivity.
Qed.

(** X11. Fail-safe load. When what is in the directory cannot be loaded,
    the store starts empty: no index, no fingerprint, no compression
    retriever, every search empty; the directory is left as it is. *)
Theorem new_over_unreadable_directory (env : Env) (size : Z) (rerank : bool)
    (n : option Z) (saved : FAISS) (e : string) :
  load_local_exn env saved = Some e ->
  let st := new env size rerank n (Some saved) in
  vector_index st = None
  /\ added_doc_hashes st = ∅
  /\ compression_retriever st = None
  /\ use_reranker st = rerank
  /\ disk st = Some saved
  /\ forall query k, similarity_search env st query k = (st, []).
Proof.
  intros Hload st.
  assert (E : st = {| batch_size := size; use_reranker := rerank;
                      reranker_top_n := n; vector_index := None;
                      added_doc_hashes := ∅; compression_retriever := None;
                      heap := ∅; disk := Some saved |}).
  { unfold st, new, _load_local_index. simpl. rewrite Hload.
    unfold _setup_reranker. simpl. destruct rerank; reflexivity. }
  rewrite E. repeat split.
Qed.

(** ** The index the compression retriever reads *)

Lemma add_batch_detached (env : Env) (st : VectorStore) (batch : list Document)
    (a : addr) (old : FAISS) :
  detached a old st -> detached a old (fst (_add_batch_and_persist env st batch)).
Proof.
  intros [Hold Hne]. unfold _add_batch_and_persist.
  destruct batch as [|d batch]; [split; assumption|].
  destruct (mutate_index env st (d :: batch)) as [st1|e] eqn:E;
    [|split; assumption].
  cbn [bind try_except fst].
  destruct (update_doc_hashes_fields (d :: batch) (_save_local_index env st1))
    as (H1 & H2 & _).
  destruct (save_local_index_fields env st1) as (S1 & S2 & _).
  unfold detached. rewrite H1, H2, S1, S2.
  unfold mutate_index in E. destruct (vector_index st) as [a'|] eqn:Ev.
  - destruct (add_documents_exn env (deref st a') (d :: batch)); [discriminate E|].
    injection E as <-. simpl. rewrite Ev.
    split; [|exact Hne]. rewrite lookup_insert_ne; [exact Hold | congruence].
  - destruct (from_documents_exn env (d :: batch)); [discriminate E|].
    injection E as <-. simpl.
    assert (Hfresh : fresh (dom (heap st)) <> a).
    { intros <-. apply (is_fresh (dom (heap st))).
      apply elem_of_dom. eauto. }
    split; [rewrite lookup_insert_ne; [exact Hold | exact Hfresh] | congruence].
Qed.

Lemma gather_batches_detached (env : Env) (batches : list (list Document))
    (st : VectorStore) (a : addr) (old : FAISS) :
  detached a old st -> detached a old (gather_batches env st batches).
Proof.
  revert st. induction batches as [|b batches IH]; intros st H; [exact H|].
  unfold gather_batches in *. simpl. apply IH, add_batch_detached, H.
Qed.

Lemma create_vector_index_detached (env : Env) (st st' : VectorStore)
    (documents : list Document) (a : addr) (old : FAISS) :
  detached a old st ->
  _create_vector_index env st documents = Ok st' ->
  detached a old st'.
Proof.
  intros H. rewrite create_vector_index_new_documents.
  destruct (new_documents st documents) as [|d news].
  - intros E. injection E as <-. exact H.
  - unfold floor_div. destruct (batch_size st =? 0)%Z; [intros [=]|]. cbn [bind].
    destruct (_create_batches st (d :: news)) as [batches|]; [|intros [=]].
    cbn [bind]. intros E. injection E as <-.
    apply gather_batches_detached, H.
Qed.

(** X12. A compression retriever outlives [delete_index]. Take a store
    with reranking on whose compression retriever reads the object [old],
    delete the index while the directory exists, then ingest again so that
    there is an index: every search is answered by the compression
    retriever over [old], the documents from before the deletion, and not
    over the new index. *)
Theorem search_after_delete_reads_old_index (env env' : Env)
    (st st' : VectorStore) (documents : list Document) (r : Retriever)
    (old : FAISS) (query : string) (k : Z) :
  use_reranker st = true ->
  compression_retriever st = Some r ->
  heap st !! base_retriever r = Some old ->
  disk st <> None ->
  _create_vector_index env' (delete_index env st) documents = Ok st' ->
  vector_index st' <> None ->
  snd (similarity_search env' st' query k)
  = try_except (ainvoke env' old (Some k) query) (fun _ => []).
Proof.
  intros Hu Hc Hold Hdisk E Hv.
  assert (Hdel : detached (base_retriever r) old (delete_index env st)
                 /\ use_reranker (delete_index env st) = true
                 /\ compression_retriever (delete_index env st) = Some r).
  { unfold delete_index. destruct (disk st); [|congruence].
    destruct (rmtree_exn env); (split; [split; [exact Hold | discriminate]|]);
      simpl; auto. }
  destruct Hdel as (Hdet & Hu1 & Hc1).
  destruct (create_vector_index_detached env' _ st' documents _ old Hdet E)
    as [Hold' _].
  destruct (create_vector_index_keeps_reranker env' _ st' documents E)
    as [Hu' Hc'].
  rewrite Hu1 in Hu'. rewrite Hc1 in Hc'.
  unfold similarity_search, perform_reranked_search.
  destruct (vector_index st'); [|congruence].
  rewrite Hu', Hc'. read_object Hold'. reflexivity.
Qed.

End Persistence.

(** * Further properties of the RAG chain *)

Section Prompts.
Import Py Rag_chain.
Local Open Scope string_scope.
Local Open Scope list_scope.

Lemma concat_cons2 (sep x y : string) (l : list string) :
  String.concat sep (x :: y :: l) = x +:+ sep +:+ String.concat sep (y :: l).
Proof. reflexivity. Qed.

Lemma contains_concat (x sep y : string) (l : list string) :
  In y l -> contains x y = true -> contains x (String.concat sep l) = true.
Proof.
  intros Hin Hx. induction l as [|z l IH]; [destruct Hin|].
  destruct l as [|z' l].
  - destruct Hin as [->|[]]. exact Hx.
  - rewrite concat_cons2. destruct Hin as [->|Hin].
    + apply contains_append_l, Hx.
    + do 2 apply contains_append_r. apply IH, Hin.
Qed.

Lemma contains_template (x indent y : string) (lines : list (option string)) :
  In (Some y) lines -> contains x y = true ->
  contains x (template indent lines) = true.
Proof.
  intros Hin Hx. unfold template.
  apply (contains_concat x nl (indent +:+ y)).
  - apply in_map_iff. exists (Some y). split; [reflexivity | exact Hin].
  - apply contains_append_r, Hx.
Qed.

Lemma contains_prompt_format (x context history q y : string) :
  y = context \/ y = history \/ y = q ->
  contains x y = true ->
  contains x (prompt_format context history q) = true.
Proof.
  intros Hy Hx. unfold prompt_format.
  do 2 apply contains_append_r. apply contains_append_l.
  apply (contains_template x _ y); [|exact Hx].
  destruct Hy as [->|[->| ->]]; simpl; tauto.
Qed.

Lemma contains_reprompt_format (x pubmed_results context history q y : string) :
  y = pubmed_results \/ y = context \/ y = history \/ y = q ->
  contains x y = true ->
  contains x (reprompt_format pubmed_results context history q) = true.
Proof.
  intros Hy Hx. unfold reprompt_format.
  do 2 apply contains_append_r. apply contains_append_l.
  apply (contains_template x _ y); [|exact Hx].
  destruct Hy as [->|[->|[->| ->]]]; simpl; tauto.
Qed.

(** X13. The prompts carry what they are given: the first prompt contains
    the context, the history and the question it is formatted with, and
    the second prompt contains the PubMed results, the context, the
    history and the question; both end with the answer cue. *)
Theorem prompts_carry_their_inputs (pubmed_results context history q : string) :
  (contains context (prompt_format context history q) = true
   /\ contains history (prompt_format context history q) = true
   /\ contains q (prompt_format context history q) = true)
  /\ (contains pubmed_results
        (reprompt_format pubmed_results context history q) = true
      /\ contains context (reprompt_format pubmed_results context history q) = true
      /\ contains history (reprompt_format pubmed_results context history q) = true
      /\ contains q (reprompt_format pubmed_results context history q) = true)
  /\ contains "Summary::" (prompt_format context history q) = true
  /\ contains "Summary::" (reprompt_format pubmed_results context history q) = true.
Proof.
  split; [|split; [|split]].
  - repeat split.
    + apply (contains_prompt_format _ _ _ _ context); [tauto | apply contains_refl].
    + apply (contains_prompt_format _ _ _ _ history); [tauto | apply contains_refl].
    + apply (contains_prompt_format _ _ _ _ q); [tauto | apply contains_refl].
  - repeat split.
    + apply (contains_reprompt_format _ _ _ _ _ pubmed_results);
        [tauto | apply contains_refl].
    + apply (contains_reprompt_format _ _ _ _ _ context);
        [tauto | apply contains_refl].
    + apply (contains_reprompt_format _ _ _ _ _ history);
        [tauto | apply contains_refl].
    + apply (contains_reprompt_format _ _ _ _ _ q); [tauto | apply contains_refl].
  - unfold prompt_format. do 2 apply contains_append_r. apply contains_append_l.
    apply (contains_template _ _ "Summary::"); [simpl; tauto | reflexivity].
  - unfold reprompt_format. do 2 apply contains_append_r. apply contains_append_l.
    apply (contains_template _ _ "Summary::"); [simpl; tauto | reflexivity].
Qed.

(** ** The history *)

Lemma last_in_slice_last {A} (l : list A) (x : A) (n : Z) :
  last l = Some x -> (1 <= n)%Z -> In x (slice_last l n).
Proof.
  intros Hlast Hn. apply last_Some in Hlast as [l' ->].
  unfold slice_last. destruct (Z.ltb_spec 0 n); [|lia].
  rewrite skipn_app. apply in_or_app. right.
  rewrite length_app. simpl.
  replace (length l' + 1 - Z.to_nat n - length l') with 0 by lia.
  left. reflexivity.
Qed.

Lemma format_history_turn (st : RAGChain) (turn : Turn) :
  In turn (slice_last (memory st) (max_memory st)) ->
  memory st <> [] ->
  forall x,
    contains x ("Human: " +:+ question turn) = true
    \/ contains x ("Assistant: " +:+ answer turn) = true ->
    contains x (_format_history st) = true.
Proof.
  intros Hin Hne x Hx. unfold _format_history.
  destruct (memory st) as [|t m] eqn:E; [congruence|].
  rewrite <- E in Hin |- *.
  destruct Hx as [Hx|Hx].
  - apply (contains_concat x nl ("Human: " +:+ question turn)); [|exact Hx].
    apply in_flat_map. exists turn. split; [exact Hin | left; reflexivity].
  - apply (contains_concat x nl ("Assistant: " +:+ answer turn)); [|exact Hx].
    apply in_flat_map. exists turn. split; [exact Hin | right; left; reflexivity].
Qed.

Lemma invoke_ok_state (env : Env) (st st1 : RAGChain) (q a : string) (k : Z) :
  invoke env st q k = (st1, Ok a) -> st1 = _add_to_memory st q a.
Proof.
  unfold invoke. destruct (hybrid_retrieval env q k); [|intros [=]].
  destruct (llm_initial env _); [|intros [=]].
  intros H. injection H as <- <-. reflexivity.
Qed.

Lemma invoke_raise_state (env : Env) (st st1 : RAGChain) (q e : string) (k : Z) :
  invoke env st q k = (st1, Raise e) -> st1 = st.
Proof.
  unfold invoke. destruct (hybrid_retrieval env q k).
  - destruct (llm_initial env _); intros [=]. congruence.
  - intros [=]. congruence.
Qed.

(** X14. What was just asked is in the next prompt. After an [invoke] that
    returned answer [a] to question [q], on a chain with room for a turn
    ([1 <= max_memory]), the history, and so the first prompt of any
    later question, contains the lines ["Human: q"] and ["Assistant: a"]. *)
Theorem next_prompt_shows_last_turn (env : Env) (st st1 : RAGChain)
    (q a : string) (k : Z) :
  (1 <= max_memory st)%Z ->
  invoke env st q k = (st1, Ok a) ->
  contains ("Human: " +:+ q) (_format_history st1) = true
  /\ contains ("Assistant: " +:+ a) (_format_history st1) = true
  /\ forall context q',
       contains ("Human: " +:+ q)
                (prompt_format context (_format_history st1) q') = true
       /\ contains ("Assistant: " +:+ a)
                   (prompt_format context (_format_history st1) q') = true.
Proof.
  intros Hmax E. apply invoke_ok_state in E. subst st1.
  pose proof (add_to_memory_last st q a Hmax) as Hlast.
  set (st1 := _add_to_memory st q a) in *.
  assert (Hin : In {| question := q; answer := a |}
                   (slice_last (memory st1) (max_memory st1))).
  { apply last_in_slice_last; [exact Hlast|].
    unfold st1. rewrite add_to_memory_max. exact Hmax. }
  assert (Hne : memory st1 <> []).
  { intros Hnil. rewrite Hnil in Hlast. discriminate Hlast. }
  pose proof (format_history_turn st1 _ Hin Hne) as Hf.
  cbn [question answer] in Hf.
  assert (Hq : contains ("Human: " +:+ q) (_format_history st1) = true)
    by (apply Hf; left; apply contains_refl).
  assert (Ha : contains ("Assistant: " +:+ a) (_format_history st1) = true)
    by (apply Hf; right; apply contains_refl).
  split; [exact Hq|]. split; [exact Ha|].
  intros context q'. split.
  - apply (contains_prompt_format _ _ _ _ (_format_history st1)); [tauto | exact Hq].
  - apply (contains_prompt_format _ _ _ _ (_format_history st1)); [tauto | exact Ha].
Qed.

End Prompts.

Section Batches_of_questions.
Import Py Rag_chain.
Local Open Scope string_scope.
Local Open Scope list_scope.

Variable env : Env.

(** X15. When the first generation output does not contain ["TOOL_USE:"],
    [invoke] returns that output as the answer and stores it in the memory,
    whatever the literature tool and the second generation call would do:
    neither is consulted. *)
Theorem invoke_direct_answer (st : RAGChain) (q : string) (k : Z)
    (context : string) (response : Response) :
  hybrid_retrieval env q k = Ok context ->
  llm_initial env (prompt_format context (_format_history st) q) = Ok response ->
  contains "TOOL_USE:" (text_of response) = false ->
  invoke env st q k
  = (_add_to_memory st q (text_of response), Ok (text_of response)).
Proof.
  intros H1 H2 H3. unfold invoke, marker. rewrite H1, H2, H3. reflexivity.
Qed.

(** X16. When the tool returns and the second generation call raises,
    [invoke] does not raise: the answer is the PubMed-tool error message
    built from the text of that exception, followed by the first output,
    and it is that message that goes into the memory. *)
Theorem invoke_second_call_failure (st : RAGChain) (q : string) (k : Z)
    (context pubmed_results e : string) (response : Response) :
  hybrid_retrieval env q k = Ok context ->
  llm_initial env (prompt_format context (_format_history st) q) = Ok response ->
  contains "TOOL_USE:" (text_of response) = true ->
  pubmed_invoke env q = Ok pubmed_results ->
  llm_invoke env (reprompt_format pubmed_results context (_format_history st) q)
    = Raise e ->
  invoke env st q k
  = (_add_to_memory st q (tool_error e (text_of response)),
     Ok (tool_error e (text_of response)))
  /\ contains "the PubMed tool" (tool_error e (text_of response)) = true
  /\ contains e (tool_error e (text_of response)) = true.
Proof.
  intros H1 H2 H3 H4 H5. split; [|split].
  - unfold invoke, marker. rewrite H1, H2, H3, H4. simpl. rewrite H5. reflexivity.
  - unfold tool_error. apply contains_append_l. reflexivity.
  - unfold tool_error. apply contains_append_r, contains_prefix, prefix_append.
Qed.

(** ** [batch_invoke] *)

(** X17. When [batch_invoke] returns, it returns one answer per question,
    and the chain is the one obtained by appending to the memory, in
    order, the turns made of each question and its answer. *)
Theorem batch_invoke_answers (questions : list string) (st st' : RAGChain)
    (answers : list string) (k : Z) :
  batch_invoke env st questions k = (st', Ok answers) ->
  length answers = length questions
  /\ st' = appends st (turns_of questions answers).
Proof.
  revert st st' answers.
  induction questions as [|q questions IH]; intros st st' answers E.
  - simpl in E. injection E as <- <-. split; reflexivity.
  - simpl in E.
    destruct (invoke env st q k) as [st1 [a|e]] eqn:E1; [|discriminate E].
    destruct (batch_invoke env st1 questions k) as [st2 [rs|e]] eqn:E2;
      [|discriminate E].
    injection E as <- <-.
    destruct (IH st1 st2 rs E2) as [Hlen Hst].
    apply invoke_ok_state in E1. subst st1.
    split; [simpl; rewrite Hlen; reflexivity | exact Hst].
Qed.

(** X18. [batch_invoke] stops at the first [invoke] that raises: if the
    questions before it were answered, leaving the chain [st1], and the
    [invoke] of the next question raises [e], then [batch_invoke] raises
    [e]; the answers obtained so far are lost, the memory keeps their
    turns, and the questions after it are not asked. *)
Theorem batch_invoke_stops_at_failure (before after : list string)
    (st st1 s : RAGChain) (answers : list string) (q e : string) (k : Z) :
  batch_invoke env st before k = (st1, Ok answers) ->
  invoke env st1 q k = (s, Raise e) ->
  batch_invoke env st (before ++ q :: after) k = (st1, Raise e).
Proof.
  revert st answers. induction before as [|q0 before IH]; intros st answers E Hq.
  - simpl in E. injection E as <- <-. simpl. rewrite Hq.
    apply invoke_raise_state in Hq. subst s. reflexivity.
  - simpl in E. simpl.
    destruct (invoke env st q0 k) as [st0 [a|e0]] eqn:E0; [|discriminate E].
    destruct (batch_invoke env st0 before k) as [st2 [rs|e2]] eqn:E2;
      [|discriminate E].
    injection E as <- <-.
    rewrite (IH st0 rs E2 Hq). reflexivity.
Qed.

Lemma add_to_memory_bounded (st : RAGChain) (q a : string) :
  (0 <= max_memory st)%Z ->
  (Z.of_nat (length (memory st)) <= max_memory st)%Z ->
  (Z.of_nat (length (memory (_add_to_memory st q a))) <= max_memory st)%Z.
Proof.
  intros Hmax Hlen. rewrite (add_to_memory_last_n st q a Hmax Hlen), last_n_length.
  lia.
Qed.

Lemma invoke_state (st : RAGChain) (q : string) (k : Z) :
  fst (invoke env st q k) = st
  \/ exists a, fst (invoke env st q k) = _add_to_memory st q a.
Proof.
  destruct (invoke env st q k) as [st1 [a|e]] eqn:E; simpl.
  - right. exists a. apply (invoke_ok_state env st st1 q a k E).
  - left. apply (invoke_raise_state env st st1 q e k E).
Qed.

Lemma batch_invoke_cons (st : RAGChain) (q : string) (questions : list string)
    (k : Z) :
  fst (batch_invoke env st (q :: questions) k) = fst (invoke env st q k)
  \/ fst (batch_invoke env st (q :: questions) k)
     = fst (batch_invoke env (fst (invoke env st q k)) questions k).
Proof.
  simpl. destruct (invoke env st q k) as [st1 [a|e]]; [|left; reflexivity].
  right. simpl. destruct (batch_invoke env st1 questions k) as [st2 [rs|e]];
    reflexivity.
Qed.

(** X19. The bound of the memory is kept by [invoke] and [batch_invoke]:
    on a chain with [0 <= max_memory] whose memory holds at most
    [max_memory] turns, the memory holds at most [max_memory] turns after
    any [invoke] and after any [batch_invoke], whether they return or
    raise, and [max_memory] is not changed. *)
Theorem invoke_keeps_memory_bound (st : RAGChain) (questions : list string)
    (k : Z) :
  (0 <= max_memory st)%Z ->
  (Z.of_nat (length (memory st)) <= max_memory st)%Z ->
  (forall q,
      max_memory (fst (invoke env st q k)) = max_memory st
      /\ (Z.of_nat (length (memory (fst (invoke env st q k))))
          <= max_memory st)%Z)
  /\ max_memory (fst (batch_invoke env st questions k)) = max_memory st
  /\ (Z.of_nat (length (memory (fst (batch_invoke env st questions k))))
      <= max_memory st)%Z.
Proof.
  assert (Hone : forall s q,
             (0 <= max_memory s)%Z ->
             (Z.of_nat (length (memory s)) <= max_memory s)%Z ->
             max_memory (fst (invoke env s q k)) = max_memory s
             /\ (Z.of_nat (length (memory (fst (invoke env s q k))))
                 <= max_memory s)%Z).
  { intros s q Hmax Hlen. destruct (invoke_state s q k) as [-> | [a ->]].
    - split; [reflexivity | exact Hlen].
    - split; [apply add_to_memory_max | apply add_to_memory_bounded; assumption]. }
  intros Hmax Hlen. split; [intros q; apply Hone; assumption|].
  revert st Hmax Hlen. induction questions as [|q questions IH]; intros st Hmax Hlen.
  - split; [reflexivity | exact Hlen].
  - destruct (Hone st q Hmax Hlen) as [Hm Hl].
    destruct (batch_invoke_cons st q questions k) as [-> | ->].
    + split; assumption.
    + destruct (IH (fst (invoke env st q k))) as [Hm' Hl'];
        [rewrite Hm; exact Hmax | rewrite Hm; exact Hl |].
      rewrite Hm in Hm', Hl'. split; assumption.
Qed.

(** X20. A chain with [max_memory <= 0] remembers nothing: from an empty
    memory, the memory is empty after any [batch_invoke], and the history
    is the sentence for an empty memory. *)
Theorem max_memory_zero_forgets (st : RAGChain) (questions : list string) (k : Z) :
  (max_memory st <= 0)%Z ->
  memory st = [] ->
  memory (fst (batch_invoke env st questions k)) = []
  /\ _format_history (fst (batch_invoke env st questions k))
     = "No previous conversation.".
Proof.
  intros Hmax Hmem.
  assert (Hempty : memory (fst (batch_invoke env st questions k)) = []).
  { revert st Hmax Hmem.
    induction questions as [|q questions IH]; intros st Hmax Hmem; [exact Hmem|].
    assert (Hone : memory (fst (invoke env st q k)) = []
                   /\ max_memory (fst (invoke env st q k)) = max_memory st).
    { destruct (invoke_state st q k) as [-> | [a ->]]; [split; auto|].
      split; [|apply add_to_memory_max].
      unfold _add_to_memory. rewrite Hmem. simpl length.
      destruct (Z.ltb_spec (max_memory st) (Z.of_nat 1)); [reflexivity | lia]. }
    destruct Hone as [Hm Hx].
    destruct (batch_invoke_cons st q questions k) as [-> | ->]; [exact Hm|].
    apply IH; [rewrite Hx; exact Hmax | exact Hm]. }
  split; [exact Hempty|]. unfold _format_history. rewrite Hempty. reflexivity.
Qed.

End Batches_of_questions.

(** * The further properties on the examples *)

Section More_examples.
Import Py Vectorstore Scenario.
Local Open Scope string_scope.
Local Open Scope list_scope.

Lemma quiet_library_works : library_works quiet.
Proof. split; [split|]; intros; reflexivity. Qed.

Lemma after_ingest_reachable : reachable after_ingest.
Proof.
  apply (reachable_create_vector_index quiet fresh_store [aspirin1; aspirin2]).
  - apply reachable_new.
  - vm_compute. reflexivity.
Qed.

Lemma create_batches_partition_witness :
  _create_batches (store 2 false) [aspirin1; ibuprofen; warfarin]
  = Ok [[aspirin1; ibuprofen]; [warfarin]]
  /\ exists batches,
       _create_batches (store 2 false) [aspirin1; ibuprofen; warfarin] = Ok batches
       /\ concat batches = [aspirin1; ibuprofen; warfarin]
       /\ Forall (fun batch => 1 <= length batch
                               /\ (Z.of_nat (length batch)
                                   <= batch_size (store 2 false))%Z) batches.
Proof.
  split; [vm_compute; reflexivity|].
  apply (create_batches_partition (store 2 false) [aspirin1; ibuprofen; warfarin]).
  reflexivity.
Defined.

Lemma create_vector_index_bad_batch_size_witness :
  (exists e, _create_vector_index quiet (store 0 false) [aspirin1] = Raise e)
  /\ _create_vector_index quiet (store (-5) false) [aspirin1]
     = Ok (store (-5) false).
Proof.
  split.
  - apply (create_vector_index_bad_batch_size quiet (store 0 false) [aspirin1]);
      [vm_compute; discriminate | reflexivity].
  - apply (create_vector_index_bad_batch_size quiet (store (-5) false) [aspirin1]);
      [vm_compute; discriminate | reflexivity].
Defined.

Lemma create_vector_index_nothing_new_witness :
  _create_vector_index embedding_down after_ingest [aspirin2; blank; aspirin1]
  = Ok after_ingest.
Proof.
  apply (create_vector_index_nothing_new embedding_down after_ingest
           [aspirin2; blank; aspirin1]).
  intros doc [<-|[<-|[<-|[]]]] Hv.
  - apply elem_of_elements. vm_compute. left.
  - vm_compute in Hv. discriminate Hv.
  - apply elem_of_elements. vm_compute. left.
Defined.

Lemma create_vector_index_batches_all_or_nothing_witness :
  indexed partly_ingested = [aspirin1; warfarin]
  /\ accepted (rejects ibuprofen) (index_of (store 1 false))
       [[aspirin1]; [ibuprofen]; [warfarin]]
     = [[aspirin1]; [warfarin]]
  /\ exists batches,
       _create_batches (store 1 false)
         (new_documents (store 1 false) [aspirin1; ibuprofen; warfarin])
       = Ok batches
       /\ accepted (rejects ibuprofen) (index_of (store 1 false)) batches
            `sublist_of` batches
       /\ indexed partly_ingested
          = indexed (store 1 false)
            ++ concat (accepted (rejects ibuprofen) (index_of (store 1 false))
                         batches)
       /\ added_doc_hashes partly_ingested
          = added_doc_hashes (store 1 false)
            ∪ hashes_of (concat (accepted (rejects ibuprofen)
                                   (index_of (store 1 false)) batches)).
Proof.
  split; [vm_compute; reflexivity|]. split; [vm_compute; reflexivity|].
  destruct (create_vector_index_batches_all_or_nothing (rejects ibuprofen)
              (store 1 false) partly_ingested [aspirin1; ibuprofen; warfarin]
              ltac:(vm_compute; reflexivity)) as [_ Hsome].
  apply Hsome. vm_compute. discriminate.
Defined.

Lemma reachable_fingerprints_match_index_witness :
  added_doc_hashes after_ingest = hashes_of (indexed after_ingest)
  /\ _is_new_document after_ingest aspirin2 = false.
Proof.
  destruct (reachable_fingerprints_match_index after_ingest after_ingest_reachable)
    as (Hh & Hold & _).
  split; [exact Hh|]. apply Hold. vm_compute. right. left. reflexivity.
Defined.

Lemma add_batch_survives_save_failure_witness :
  snd (_add_batch_and_persist read_only_disk fresh_store [aspirin1]) = 1%Z
  /\ indexed (fst (_add_batch_and_persist read_only_disk fresh_store [aspirin1]))
     = [aspirin1]
  /\ disk (fst (_add_batch_and_persist read_only_disk fresh_store [aspirin1]))
     = None.
Proof.
  destruct (add_batch_survives_save_failure read_only_disk fresh_store
              (run (mutate_index read_only_disk fresh_store [aspirin1]) fresh_store)
              [aspirin1] ltac:(discriminate) ltac:(vm_compute; reflexivity))
    as (Hn & Hi & _ & Hd).
  split; [exact Hn|]. split; [exact Hi | exact Hd].
Defined.

Lemma create_vector_index_adds_all_new_witness :
  exists st',
    _create_vector_index quiet (store 2 false)
      [aspirin1; blank; ibuprofen; warfarin] = Ok st'
    /\ indexed st' = [aspirin1; ibuprofen; warfarin]
    /\ disk st' = Some [aspirin1; ibuprofen; warfarin].
Proof.
  destruct (create_vector_index_adds_all_new quiet (store 2 false)
              [aspirin1; blank; ibuprofen; warfarin] quiet_library_works eq_refl)
    as (st' & E & Hi & _ & Hd).
  exists st'. split; [exact E|].
  assert (Hi' : indexed st' = [aspirin1; ibuprofen; warfarin]).
  { etransitivity; [exact Hi | vm_compute; reflexivity]. }
  split; [exact Hi'|]. rewrite <- Hi'. apply Hd. vm_compute. discriminate.
Defined.

Lemma ingest_save_reload_witness :
  indexed (new quiet 50 false None (disk after_ingest)) = [aspirin1; aspirin2]
  /\ added_doc_hashes (new quiet 50 false None (disk after_ingest))
     = added_doc_hashes after_ingest.
Proof.
  destruct (ingest_save_reload quiet quiet fresh_store after_ingest
              [aspirin1; aspirin2] 50 false None) as [Hi Hh].
  - apply reachable_new.
  - exact quiet_library_works.
  - reflexivity.
  - vm_compute. discriminate.
  - vm_compute. reflexivity.
  - reflexivity.
  - split; [rewrite Hi; vm_compute; reflexivity | exact Hh].
Defined.

Lemma search_after_reranker_failure_witness :
  use_reranker (new reranker_down 200 true (Some 4%Z) (Some [aspirin1])) = false
  /\ snd (similarity_search reranker_down
            (new reranker_down 200 true (Some 4%Z) (Some [aspirin1]))
            "aspirin" 4)
     = [aspirin1].
Proof.
  destruct (search_after_reranker_failure reranker_down 200 (Some 4%Z)
              [aspirin1] "model not found" eq_refl eq_refl) as (Hu & _ & Hs).
  split; [exact Hu|]. rewrite Hs. reflexivity.
Defined.

Lemma search_after_load_is_reranked_witness :
  snd (similarity_search quiet
         (new quiet 200 true (Some 4%Z) (Some [aspirin1; ibuprofen; warfarin]))
         "aspirin" 2)
  = [aspirin1; ibuprofen]
  /\ use_reranker (new quiet 200 true None (Some [aspirin1; ibuprofen; warfarin]))
     = false.
Proof.
  split.
  - destruct (search_after_load_is_reranked quiet 200 (Some 4%Z)
                [aspirin1; ibuprofen; warfarin] "aspirin" 2 eq_refl eq_refl)
      as (_ & Hs & _).
    etransitivity; [exact Hs | reflexivity].
  - destruct (search_after_load_is_reranked quiet 200 None
                [aspirin1; ibuprofen; warfarin] "aspirin" 2 eq_refl eq_refl)
      as (Hu & _ & _).
    exact Hu.
Defined.

Lemma new_over_unreadable_directory_witness :
  vector_index (new unreadable_disk 200 true (Some 4%Z) (Some [aspirin1])) = None
  /\ disk (new unreadable_disk 200 true (Some 4%Z) (Some [aspirin1]))
     = Some [aspirin1]
  /\ snd (similarity_search unreadable_disk
            (new unreadable_disk 200 true (Some 4%Z) (Some [aspirin1]))
            "aspirin" 4) = [].
Proof.
  destruct (new_over_unreadable_directory unreadable_disk 200 true (Some 4%Z)
              [aspirin1] "could not open index" eq_refl)
    as (Hv & _ & _ & _ & Hd & Hs).
  split; [exact Hv|]. split; [exact Hd|]. rewrite Hs. reflexivity.
Defined.

Lemma search_after_delete_reads_old_index_witness :
  indexed reingested = [ibuprofen]
  /\ snd (similarity_search quiet reingested "ibuprofen" 4) = [aspirin1].
Proof.
  split; [vm_compute; reflexivity|].
  rewrite (search_after_delete_reads_old_index quiet quiet loaded_store
             reingested [ibuprofen]
             {| top_n := Some 4%Z; base_retriever := 0 |} [aspirin1]
             "ibuprofen" 4).
  - reflexivity.
  - vm_compute. reflexivity.
  - vm_compute. reflexivity.
  - vm_compute. reflexivity.
  - vm_compute. discriminate.
  - vm_compute. reflexivity.
  - vm_compute. discriminate.
Defined.

End More_examples.

Section More_examples_chain.
Import Py Rag_chain Scenario.
Local Open Scope string_scope.
Local Open Scope list_scope.

Lemma next_prompt_shows_last_turn_witness :
  let st1 := fst (invoke direct (init 10) "What is aspirin?" 3) in
  contains "Human: What is aspirin?" (_format_history st1) = true
  /\ contains "Assistant: a salicylate"
              (prompt_format "context" (_format_history st1) "And ibuprofen?")
     = true.
Proof.
  intros st1.
  destruct (next_prompt_shows_last_turn direct (init 10) st1
              "What is aspirin?" "a salicylate" 3 ltac:(simpl; lia) eq_refl)
    as (Hq & _ & Hp).
  split; [exact Hq | apply Hp].
Defined.

Lemma invoke_direct_answer_witness :
  invoke direct (init 10) "What is aspirin?" 3
  = ({| memory := [{| question := "What is aspirin?";
                      answer := "a salicylate" |}];
        max_memory := 10 |},
     Ok "a salicylate").
Proof.
  apply (invoke_direct_answer direct (init 10) "What is aspirin?" 3 "context"
           (Other "a salicylate")); reflexivity.
Defined.

Lemma invoke_second_call_failure_witness :
  snd (invoke second_call_down (init 10) "What is aspirin?" 3)
  = Ok (tool_error "rate limit exceeded" "TOOL_USE: need more info").
Proof.
  destruct (invoke_second_call_failure second_call_down (init 10)
              "What is aspirin?" 3 "context" "results" "rate limit exceeded"
              (WithContent "TOOL_USE: need more info")
              eq_refl eq_refl eq_refl eq_refl eq_refl) as (E & _ & _).
  rewrite E. reflexivity.
Defined.

Lemma batch_invoke_answers_witness :
  length ["a real answer"; "a real answer"] = 2
  /\ fst (batch_invoke fallback (init 10) ["q1"; "q2"] 3)
     = appends (init 10)
         (turns_of ["q1"; "q2"] ["a real answer"; "a real answer"]).
Proof.
  apply (batch_invoke_answers fallback ["q1"; "q2"] (init 10)
           (fst (batch_invoke fallback (init 10) ["q1"; "q2"] 3))
           ["a real answer"; "a real answer"] 3).
  vm_compute. reflexivity.
Defined.

Lemma batch_invoke_stops_at_failure_witness :
  batch_invoke (fails_on "q2") (init 10) ["q1"; "q2"; "q3"] 3
  = ({| memory := [{| question := "q1"; answer := "an answer" |}];
        max_memory := 10 |},
     Raise "graph unreachable").
Proof.
  apply (batch_invoke_stops_at_failure (fails_on "q2") ["q1"] ["q3"] (init 10)
           (_add_to_memory (init 10) "q1" "an answer")
           (_add_to_memory (init 10) "q1" "an answer")
           ["an answer"] "q2" "graph unreachable" 3);
    vm_compute; reflexivity.
Defined.

Lemma invoke_keeps_memory_bound_witness :
  (Z.of_nat (length (memory (fst (batch_invoke direct (init 2)
                                    ["q1"; "q2"; "q3"; "q4"] 3)))) <= 2)%Z.
Proof.
  destruct (invoke_keeps_memory_bound direct (init 2) ["q1"; "q2"; "q3"; "q4"] 3
              ltac:(simpl; lia) ltac:(simpl; lia)) as (_ & _ & H).
  exact H.
Defined.

Lemma max_memory_zero_forgets_witness :
  _format_history (fst (batch_invoke direct (init 0) ["q1"; "q2"] 3))
  = "No previous conversation.".
Proof.
  destruct (max_memory_zero_forgets direct (init 0) ["q1"; "q2"] 3
              ltac:(simpl; lia) eq_refl) as [_ H].
  exact H.
Defined.

End More_examples_chain.
